(** * why-is-node-running: a shallow embedding of [src/index.js]

    The module keeps a process-wide registry of asynchronous resources,
    fed by the [init]/[destroy] callbacks of an async hook, and on demand
    prints the resources that still keep the event loop alive together
    with the call stack captured when each one was created.

    Layout of this file:
    - [JS]: the JavaScript values, exceptions and string builtins the
      source relies on;
    - the state of the module ([World]) and a state-and-exception monad
      [M] in which the effectful functions are written;
    - the functions of [index.js], in source order of dependency;
    - the properties established about them. *)

From Stdlib Require Import Ascii.
From stdpp Require Import gmap strings list pretty.

Open Scope Z_scope.

#[local] Set Warnings "-clear-no-such-hyp".

(** ** JavaScript values, exceptions, string builtins *)
Module JS.

(** Exceptions that can travel through the code. *)
Inductive Exn : Type :=
| TypeError (msg : string)
| RangeError (msg : string)
| HostError (msg : string).

(** Result of evaluating a fallible expression. *)
Inductive Outcome (A : Type) : Type :=
| Ret (a : A)
| Throw (e : Exn).
Arguments Ret {A} a.
Arguments Throw {A} e.

Definition Outcome_bind {A B} (f : A → Outcome B) (o : Outcome A) : Outcome B :=
  match o with
  | Ret a => f a
  | Throw e => Throw e
  end.

#[global] Instance Outcome_ret : MRet Outcome := @Ret.
#[global] Instance Outcome_mbind : MBind Outcome := @Outcome_bind.

(** The values a liveness query can hand back. *)
Inductive Value : Type :=
| VUndefined
| VNull
| VBool (b : bool)
| VNumber (z : Z)
| VString (s : string)
| VObject.

(** ToBoolean, as applied by [Array.prototype.filter] to what its
    callback returns. *)
Definition ToBoolean (v : Value) : bool :=
  match v with
  | VUndefined | VNull => false
  | VBool b => b
  | VNumber z => negb (z =? 0)
  | VString s => negb (String.eqb s "")
  | VObject => true
  end.

Definition nullish (v : Value) : bool :=
  match v with
  | VUndefined | VNull => true
  | _ => false
  end.

(** [v ?? d] *)
Definition nullish_coalesce (v d : Value) : Value :=
  if nullish v then d else v.

(** [s.startsWith(p)] *)
Definition startsWith (s p : string) : bool := String.prefix p s.

(** [s.repeat(count)]: a negative count raises a RangeError. *)
Definition repeat (s : string) (count : Z) : Outcome string :=
  if count <? 0 then Throw (RangeError "Invalid count value")
  else Ret (String.concat "" (replicate (Z.to_nat count) s)).

(** Template-literal rendering of a line number, which is a number or
    [null]. *)
Definition show_number (n : option Z) : string :=
  match n with
  | None => "null"
  | Some z => pretty z
  end.

Definition LF : ascii := Ascii.ascii_of_nat 10.
Definition CR : ascii := Ascii.ascii_of_nat 13.

(** [s.split(/\n|\r\n/)]: the string is cut at every line feed and at
    every carriage return immediately followed by a line feed; a lone
    carriage return stays in its piece.  [cur] is the piece being read,
    most recent character first. *)
Fixpoint split_lines_from (cur : list ascii) (s : string) : list string :=
  match s with
  | EmptyString => [String.string_of_list_ascii (rev cur)]
  | String c rest =>
      if Ascii.eqb c LF then
        String.string_of_list_ascii (rev cur) :: split_lines_from [] rest
      else if Ascii.eqb c CR then
        match rest with
        | String c' rest' =>
            if Ascii.eqb c' LF then
              String.string_of_list_ascii (rev cur) :: split_lines_from [] rest'
            else split_lines_from (c :: cur) rest
        | EmptyString => split_lines_from (c :: cur) rest
        end
      else split_lines_from (c :: cur) rest
  end.

Definition split_lines (s : string) : list string := split_lines_from [] s.

(** White space and line terminators among the code units below 256:
    tab, line feed, vertical tab, form feed, carriage return, space and
    no-break space. *)
Definition is_white_space (c : ascii) : bool :=
  match Ascii.nat_of_ascii c with
  | 9 | 10 | 11 | 12 | 13 | 32 | 160 => true
  | _ => false
  end%nat.

Fixpoint trim_start (l : list ascii) : list ascii :=
  match l with
  | [] => []
  | c :: l' => if is_white_space c then trim_start l' else l
  end.

(** [s.trim()] *)
Definition trim (s : string) : string :=
  String.string_of_list_ascii
    (rev (trim_start (rev (trim_start (String.list_ascii_of_string s))))).

(** [xs[i]] on an array: [undefined] outside [0 .. length-1]. *)
Definition index {A} (xs : list A) (i : Z) : option A :=
  if i <? 0 then None else xs !! Z.to_nat i.

(** [xs.slice(1)] on what may be [undefined]. *)
Definition slice1 {A} (xs : option (list A)) : Outcome (list A) :=
  match xs with
  | None => Throw (TypeError "Cannot read properties of undefined (reading 'slice')")
  | Some l => Ret (drop 1 l)
  end.

(** [xs.filter(f)] with a callback that may raise: the elements are
    visited from the first, and the first exception ends the call. *)
Fixpoint Array_filter {A} (f : A → Outcome bool) (xs : list A) : Outcome (list A) :=
  match xs with
  | [] => Ret []
  | x :: xs' =>
      keep ← f x;
      rest ← Array_filter f xs';
      Ret (if keep : bool then x :: rest else rest)
  end.

(** [xs.includes(x)] on an array of strings. *)
Definition includes (xs : list string) (x : string) : bool :=
  bool_decide (x ∈ xs).

(** A [Map] keyed by numbers.  Iteration follows insertion order, so the
    map is the list of its entries, oldest first, with pairwise distinct
    keys.  [set] on a key already present replaces the value where it
    stands; on a new key it appends. *)
Fixpoint Map_set {V} (k : Z) (v : V) (m : list (Z * V)) : list (Z * V) :=
  match m with
  | [] => [(k, v)]
  | (k', v') :: m' =>
      if decide (k' = k) then (k, v) :: m' else (k', v') :: Map_set k v m'
  end.

Definition Map_delete {V} (k : Z) (m : list (Z * V)) : list (Z * V) :=
  filter (λ kv, kv.1 ≠ k) m.

Definition Map_values {V} (m : list (Z * V)) : list V := m.*2.

Definition Map_keys {V} (m : list (Z * V)) : list Z := m.*1.

End JS.
Import JS.

(** ** Data model *)

(** What a call site answers for its file name: [null], [undefined]
    (code without a script name, such as [eval]) or a string. *)
Inductive FileName : Type :=
| FileNull
| FileUndefined
| FileString (name : string).

(** A native call site, as the host hands it to a stack-trace formatter:
    the line number is a number or [null]. *)
Record CallSite : Type := {
  getLineNumber : option Z;
  getFileName : FileName
}.

(** What [prepareStackTrace] keeps of a call site. *)
Record StackFrame : Type := {
  lineNumber : option Z;
  fileName : FileName
}.

(** The [hasRef] member of a resource object: missing, or a method with
    the value it answers at the moment of inspection. *)
Inductive HasRef : Type :=
| NoHasRef
| HasRefMethod (answer : Value).

Record Resource : Type := { hasRef : HasRef }.

(** [new WeakRef(resource)] remembers which object it points to without
    keeping it alive; objects are named by their address. *)
Inductive WeakRef : Type := WeakRef_new (target : N).

(** One registry entry, as built by [init]. *)
Record AsyncResource : Type := {
  type : string;
  resourceRef : WeakRef;
  stacks : list StackFrame
}.

(** The value held in [Error.prepareStackTrace]: nothing, a function of
    some other part of the program, or this module's [prepareStackTrace]. *)
Inductive Formatter : Type :=
| NoFormatter
| ForeignFormatter (name : string)
| OwnFormatter.

#[global] Instance FileName_eq_dec : EqDecision FileName.
Proof. solve_decision. Defined.
#[global] Instance CallSite_eq_dec : EqDecision CallSite.
Proof. solve_decision. Defined.
#[global] Instance StackFrame_eq_dec : EqDecision StackFrame.
Proof. solve_decision. Defined.
#[global] Instance WeakRef_eq_dec : EqDecision WeakRef.
Proof. solve_decision. Defined.
#[global] Instance AsyncResource_eq_dec : EqDecision AsyncResource.
Proof. solve_decision. Defined.
#[global] Instance Formatter_eq_dec : EqDecision Formatter.
Proof. solve_decision. Defined.

(** What the host does when a stack is captured at some point of the
    program (the call of [Error.captureStackTrace] and the read of
    [target.stack] that follows it): it raises, or it attaches a stack to
    the target, which is the list of call sites from the caller of
    [captureStackTraces] outwards, or nothing at all when stack
    collection is switched off ([Error.stackTraceLimit] not a number). *)
Definition CallContext : Type := Outcome (option (list CallSite)).

(** ** State of the module and of the host around it *)
Record World : Type := mkWorld {
  Error_prepareStackTrace : Formatter;        (* the global formatter slot *)
  asyncResources : list (Z * AsyncResource);  (* the registry, a Map *)
  hook_enabled : bool;                        (* hook.enable() / disable() *)
  objects : gmap N Resource;                  (* objects not yet collected *)
  logged : list string                        (* messages given to logger.error *)
}.

Definition with_formatter (f : Formatter) (w : World) : World :=
  mkWorld f (asyncResources w) (hook_enabled w) (objects w) (logged w).
Definition with_asyncResources (m : list (Z * AsyncResource)) (w : World) : World :=
  mkWorld (Error_prepareStackTrace w) m (hook_enabled w) (objects w) (logged w).
Definition with_hook_enabled (b : bool) (w : World) : World :=
  mkWorld (Error_prepareStackTrace w) (asyncResources w) b (objects w) (logged w).
Definition with_logged (l : list string) (w : World) : World :=
  mkWorld (Error_prepareStackTrace w) (asyncResources w) (hook_enabled w) (objects w) l.

(** The host collaborators of the renderer. *)
Record Host : Type := {
  cwd : string;                            (* process.cwd() *)
  relative : string → string → string;     (* path.relative(from, to) *)
  fileURLToPath : string → Outcome string; (* url.fileURLToPath, which raises
                                              on a URL it cannot turn into a path *)
  readFileSync : string → Outcome string   (* fs.readFileSync(path, 'utf-8') *)
}.

(** ** The monad of effectful code: state that survives an exception *)
Definition M (A : Type) : Type := World → Outcome A * World.

Definition M_ret {A} (a : A) : M A := λ w, (Ret a, w).

Definition M_bind {A B} (f : A → M B) (m : M A) : M B :=
  λ w, match m w with
       | (Ret a, w') => f a w'
       | (Throw e, w') => (Throw e, w')
       end.

#[global] Instance M_mret : MRet M := @M_ret.
#[global] Instance M_mbind : MBind M := @M_bind.

(** A pure fallible computation run inside [M]. *)
Definition lift {A} (o : Outcome A) : M A := λ w, (o, w).

Definition gets {A} (f : World → A) : M A := λ w, (Ret (f w), w).
Definition modify (f : World → World) : M unit := λ w, (Ret tt, f w).

(** [try { body } catch (e) { handler }] *)
Definition try_catch {A} (body : M A) (handler : Exn → M A) : M A :=
  λ w, match body w with
       | (Ret a, w') => (Ret a, w')
       | (Throw e, w') => handler e w'
       end.

(** [for (const x of xs) { body }] *)
Fixpoint for_of {A} (xs : list A) (body : A → M unit) : M unit :=
  match xs with
  | [] => mret tt
  | x :: xs' => body x;; for_of xs' body
  end.

(** [xs.reduce(f, init)] with a callback that may raise. *)
Fixpoint reduce {A B} (f : B → A → Outcome B) (xs : list A) (init : B) : Outcome B :=
  match xs with
  | [] => Ret init
  | x :: xs' => acc ← f init x; reduce f xs' acc
  end.

(** [logger.error(message)] *)
Definition logger_error (message : string) : M unit :=
  modify (λ w, with_logged (logged w ++ [message]) w).

(** ** The source, function by function *)

Definition IGNORED_TYPES : list string :=
  ["TIMERWRAP"; "PROMISE"; "PerformanceObserver"; "RANDOMBYTESREQUEST"].

Definition prepareStackTrace (stackTraces : list CallSite) : list StackFrame :=
  (λ stack, {| lineNumber := getLineNumber stack;
               fileName := getFileName stack |}) <$> stackTraces.

(** [Error.captureStackTrace(target, captureStackTraces)]: the host
    answers as the call context says. *)
Definition Error_captureStackTrace (ctx : CallContext) : M (option (list CallSite)) :=
  lift ctx.

(** Reading [target.stack] has the host format the attached call sites
    with the formatter installed at that moment, which
    [captureStackTraces] has just set to [prepareStackTrace]; without an
    attached stack the property reads [undefined]. *)
Definition target_stack (target : option (list CallSite)) : option (list StackFrame) :=
  prepareStackTrace <$> target.

Definition captureStackTraces (ctx : CallContext) : M (option (list StackFrame)) :=
  original ← gets Error_prepareStackTrace;
  modify (with_formatter OwnFormatter);;
  target ← Error_captureStackTrace ctx;
  let capturedTraces := target_stack target in
  modify (with_formatter original);;
  mret capturedTraces.

(** The [init] callback of the hook. *)
Definition init (asyncId : Z) (type : string) (triggerAsyncId : Z)
    (resource : N) (ctx : CallContext) : M unit :=
  if includes IGNORED_TYPES type then mret tt
  else
    captured ← captureStackTraces ctx;
    stacks ← lift (slice1 captured);
    modify (λ w, with_asyncResources
                   (Map_set asyncId
                      {| type := type;
                         resourceRef := WeakRef_new resource;
                         stacks := stacks |}
                      (asyncResources w)) w).

(** The [destroy] callback of the hook. *)
Definition destroy (asyncId : Z) : M unit :=
  modify (λ w, with_asyncResources (Map_delete asyncId (asyncResources w)) w).

Definition hook_enable : M unit := modify (with_hook_enabled true).
Definition hook_disable : M unit := modify (with_hook_enabled false).

(** A notification of the host, with the call context in which a
    creation happens. *)
Inductive Notification : Type :=
| NInit (asyncId : Z) (type : string) (triggerAsyncId : Z) (resource : N)
        (ctx : CallContext)
| NDestroy (asyncId : Z).

(** The host calls the callbacks only while the hook is enabled. *)
Definition notify (n : Notification) : M unit :=
  λ w, if hook_enabled w then
         match n with
         | NInit asyncId type triggerAsyncId resource ctx =>
             init asyncId type triggerAsyncId resource ctx w
         | NDestroy asyncId => destroy asyncId w
         end
       else (Ret tt, w).

Definition deliver (ns : list Notification) : M unit := for_of ns notify.

(** The state once the module is loaded, in a process with formatter [f]
    and objects [objs]: [new Map()] for the registry, then
    [hook.enable()]. *)
Definition loaded (f : Formatter) (objs : gmap N Resource) : World :=
  (hook_enable (mkWorld f [] false objs [])).2.

(** [resourceRef.deref()] *)
Definition deref (objs : gmap N Resource) (ref : WeakRef) : option Resource :=
  match ref with WeakRef_new target => objs !! target end.

(** [resource.hasRef?.()] *)
Definition hasRef_optional_call (resource : Resource) : Value :=
  match hasRef resource with
  | NoHasRef => VUndefined
  | HasRefMethod answer => answer
  end.

(** The callback given to [filter] in [whyIsNodeRunning]. *)
Definition isActive (objs : gmap N Resource) (asyncResource : AsyncResource) : bool :=
  match deref objs (resourceRef asyncResource) with
  | None => false
  | Some resource =>
      ToBoolean (nullish_coalesce (hasRef_optional_call resource) (VBool true))
  end.

Definition activeAsyncResources (w : World) : list AsyncResource :=
  filter (λ r, isActive (objects w) r) (Map_values (asyncResources w)).

Section Renderer.

Variable host : Host.

Definition normalizeFilePath (filePath : FileName) : Outcome string :=
  match filePath with
  | FileNull =>
      Throw (TypeError "Cannot read properties of null (reading 'startsWith')")
  | FileUndefined =>
      Throw (TypeError "Cannot read properties of undefined (reading 'startsWith')")
  | FileString p => if startsWith p "file://" then fileURLToPath host p else Ret p
  end.

Definition formatFilePath (filePath : FileName) : Outcome string :=
  absolutePath ← normalizeFilePath filePath;
  let relativePath := relative host (cwd host) absolutePath in
  mret (if startsWith relativePath ".." then absolutePath else relativePath).

Definition formatLocation (stack : StackFrame) : Outcome string :=
  filePath ← formatFilePath (fileName stack);
  mret (filePath +:+ ":" +:+ show_number (lineNumber stack)).

(** The frame filter of [printStacks]:
    [fileName !== null && !fileName.startsWith('node:')].  An
    [undefined] file name passes the comparison with [null] and has no
    [startsWith]. *)
Definition keepFrame (stack : StackFrame) : Outcome bool :=
  match fileName stack with
  | FileNull => Ret false
  | FileUndefined =>
      Throw (TypeError "Cannot read properties of undefined (reading 'startsWith')")
  | FileString fileName => Ret (negb (startsWith fileName "node:"))
  end.

(** The two statements at the head of the [try] block: read the file,
    cut it into lines, take line [lineNumber - 1] and trim it.  A
    [null] line number counts as 0 in the subtraction; a missing line
    is [undefined], on which [trim] cannot be called. *)
Definition sourceLine (stack : StackFrame) : Outcome string :=
  path ← normalizeFilePath (fileName stack);
  contents ← readFileSync host path;
  let lines := split_lines contents in
  match index lines (default 0 (lineNumber stack) - 1) with
  | None => Throw (TypeError "Cannot read properties of undefined (reading 'trim')")
  | Some line => mret (trim line)
  end.

(** The [reduce] that computes [maxLength]. *)
Definition maxLength_of (stacks : list StackFrame) : Outcome Z :=
  reduce (λ length stack,
            location ← formatLocation stack;
            mret (Z.max length (Z.of_nat (String.length location))))
         stacks 0.

(** The body of the loop over the retained frames. *)
Definition printFrame (maxLength : Z) (stack : StackFrame) : M unit :=
  location ← lift (formatLocation stack);
  padding ← lift (JS.repeat " " (maxLength - Z.of_nat (String.length location)));
  try_catch
    (line ← lift (sourceLine stack);
     logger_error (location +:+ padding +:+ " - " +:+ line))
    (λ e, logger_error (location +:+ padding)).

(** [!stacks[0]] holds exactly when the filtered array is empty, its
    elements being objects. *)
Definition printStacks (asyncResource : AsyncResource) : M unit :=
  stacks ← lift (Array_filter keepFrame (stacks asyncResource));
  logger_error "";;
  logger_error ("# " +:+ type asyncResource);;
  match stacks with
  | [] => logger_error "(unknown stack trace)"
  | _ :: _ =>
      maxLength ← lift (maxLength_of stacks);
      for_of stacks (printFrame maxLength)
  end.

Definition summary (count : nat) : string :=
  "There are " +:+ pretty count +:+ " handle(s) keeping the process running.".

Definition whyIsNodeRunning : M unit :=
  hook_disable;;
  activeAsyncResources ← gets activeAsyncResources;
  logger_error (summary (length activeAsyncResources));;
  for_of activeAsyncResources printStacks.

End Renderer.

(** ** Vocabulary of the properties *)

(** Stated on the history alone: [i] is the id of a creation with a type
    that is not ignored, and no destroy of [i] comes after it. *)
Definition tracked_live (ns : list Notification) (i : Z) : Prop :=
  ∃ (k : nat) type trig resource ctx,
    ns !! k = Some (NInit i type trig resource ctx) ∧
    (type ∉ IGNORED_TYPES) ∧
    ∀ j : nat, (k < j)%nat → ns !! j ≠ Some (NDestroy i).

(** The call context of a creation lets the stack be captured: the type
    is ignored (no capture takes place) or the host attaches a stack. *)
Definition creation_captured (n : Notification) : Prop :=
  match n with
  | NInit _ type _ _ ctx => type ∈ IGNORED_TYPES ∨ ∃ sites, ctx = Ret (Some sites)
  | NDestroy _ => True
  end.

(** The host's side of a history: which ids name a resource that is
    alive, and with which type it was created. *)
Definition live_step (live : gmap Z string) (n : Notification) : gmap Z string :=
  match n with
  | NInit i type _ _ _ => <[i := type]> live
  | NDestroy i => delete i live
  end.

Definition live_resources (ns : list Notification) : gmap Z string :=
  foldl live_step ∅ ns.

(** Ids are unique among the resources alive at any instant: a creation
    never uses the id of a resource that is still alive. *)
Definition ids_unique (ns : list Notification) : Prop :=
  ∀ (k : nat) i type trig resource ctx,
    ns !! k = Some (NInit i type trig resource ctx) →
    live_resources (take k ns) !! i = None.

(** The resource presents itself as ref'd: it has no liveness query, or
    the query answers with nothing (undefined or null) or with a value
    that counts as true. *)
Definition reports_refd (resource : Resource) : Prop :=
  match hasRef resource with
  | NoHasRef => True
  | HasRefMethod answer => nullish answer = true ∨ ToBoolean answer = true
  end.

(** A small process used to exercise the statements: three objects, of
    which one has no liveness query, one answers [null] and one answers
    [false]. *)
Definition demo_objects : gmap N Resource :=
  {[ 100%N := {| hasRef := NoHasRef |};
     101%N := {| hasRef := HasRefMethod VNull |};
     102%N := {| hasRef := HasRefMethod (VBool false) |} ]}.

Definition demo_site (file : FileName) (line : Z) : CallSite :=
  {| getLineNumber := Some line; getFileName := file |}.

(** A creation seen from the hook: the frame of [init] itself, then the
    program's frames. *)
Definition demo_sites : list CallSite :=
  [ demo_site (FileString "file:///opt/why-is-node-running/index.js") 20;
    demo_site (FileString "/app/server.js") 2;
    demo_site (FileString "/app/lib/connection/pool.js") 1234;
    demo_site (FileString "node:net") 5;
    demo_site FileNull 3 ].

Definition demo_ctx : CallContext := Ret (Some demo_sites).

Definition demo_history : list Notification :=
  [ NInit 1 "TCPWRAP" 0 100%N demo_ctx;
    NInit 2 "TIMERWRAP" 0 103%N demo_ctx;
    NInit 3 "Timeout" 1 101%N (Ret (Some [demo_site FileNull 1; demo_site (FileString "node:timers") 7]));
    NInit 4 "FSREQCALLBACK" 1 104%N demo_ctx;
    NDestroy 4;
    NInit 5 "Immediate" 1 102%N demo_ctx ].

Definition demo_world : World :=
  (deliver demo_history (loaded NoFormatter demo_objects)).2.

(** The record [init] stores for a tracked creation of type [type], for
    the object [resource], in a context with call sites [sites]. *)
Definition created_record (type : string) (resource : N) (sites : list CallSite) : AsyncResource :=
  {| type := type;
     resourceRef := WeakRef_new resource;
     stacks := drop 1 (prepareStackTrace sites) |}.

(** The records of [demo_history] that are tracked and not destroyed. *)
Definition demo_tcp : AsyncResource := created_record "TCPWRAP" 100%N demo_sites.
Definition demo_timeout : AsyncResource :=
  created_record "Timeout" 101%N [demo_site FileNull 1; demo_site (FileString "node:timers") 7].
Definition demo_immediate : AsyncResource := created_record "Immediate" 102%N demo_sites.

(** A frame the renderer does not show: its file name is [null] or
    begins with the prefix that marks the host's own modules. *)
Definition host_internal (s : StackFrame) : Prop :=
  fileName s = FileNull ∨ ∃ rest, fileName s = FileString ("node:" +:+ rest).

(** The frames of a stack that are left once those are dropped: the
    file name is a string that does not begin with the prefix. *)
Definition shown_frame (s : StackFrame) : bool :=
  match fileName s with
  | FileString p => negb (startsWith p "node:")
  | FileNull | FileUndefined => false
  end.

Definition retained (r : AsyncResource) : list StackFrame :=
  filter (λ s, shown_frame s) (stacks r).

(** What [printStacks] writes for one record, read off a run of the
    function on an empty log. *)
Definition block (host : Host) (r : AsyncResource) : list string :=
  logged (printStacks host r (loaded NoFormatter ∅)).2.

(** Pieces of a rendered frame line, used to describe the output. *)
Definition location (host : Host) (s : StackFrame) : string :=
  match formatLocation host s with
  | Ret loc => loc
  | Throw _ => ""
  end.

Definition widest (host : Host) (frames : list StackFrame) : nat :=
  max_list ((λ s, String.length (location host s)) <$> frames).

Definition spaces (n : nat) : string := String.concat "" (replicate n " ").

Definition excerpt (host : Host) (s : StackFrame) : string :=
  match sourceLine host s with
  | Ret line => " - " +:+ line
  | Throw _ => ""
  end.

Definition frame_line (host : Host) (width : nat) (s : StackFrame) : string :=
  location host s
  +:+ spaces (width - String.length (location host s))
  +:+ excerpt host s.

(** The lines of a block below its header. *)
Definition block_body (host : Host) (r : AsyncResource) : list string :=
  match retained r with
  | [] => ["(unknown stack trace)"]
  | _ :: _ => frame_line host (widest host (retained r)) <$> retained r
  end.

(** A host for the examples: the working directory is [/app], one source
    file exists, [relative] strips the working directory from the paths
    below it and climbs out of it for the others, and [fileURLToPath]
    refuses a file URL that names a host. *)
Definition demo_relative (from to : string) : string :=
  if String.prefix (from +:+ "/") to
  then String.substring (S (String.length from))
         (String.length to - S (String.length from)) to
  else "../.." +:+ to.

Definition demo_host : Host :=
  {| cwd := "/app";
     relative := demo_relative;
     fileURLToPath := λ url,
       if String.prefix "file:///" url
       then Ret (String.substring 7 (String.length url - 7) url)
       else Throw (TypeError "File URL host must be localhost or empty");
     readFileSync := λ path,
       if String.eqb path "/app/server.js"
       then Ret ("const net = require('net')" +:+ String LF
                 "  net.createServer().listen(0)  " +:+ String CR (String LF
                 "// end"))
       else Throw (HostError "ENOENT: no such file or directory") |}.

(** The second retained frame of [demo_tcp]; its file is not on the
    demo host. *)
Definition demo_pool_frame : StackFrame :=
  {| lineNumber := Some 1234; fileName := FileString "/app/lib/connection/pool.js" |}.

(** A process in which the first of two active resources was created
    from a script whose name is a file URL with a host. *)
Definition demo_remote_sites : list CallSite :=
  [ demo_site (FileString "file:///opt/why-is-node-running/index.js") 20;
    demo_site (FileString "file://build-host/app/worker.js") 8 ].

Definition demo_remote : AsyncResource :=
  {| type := "TCPWRAP"; resourceRef := WeakRef_new 100%N;
     stacks := drop 1 (prepareStackTrace demo_remote_sites) |}.

Definition demo_world_remote : World :=
  (deliver [ NInit 1 "TCPWRAP" 0 100%N (Ret (Some demo_remote_sites));
             NInit 3 "Timeout" 1 101%N demo_ctx ]
     (loaded NoFormatter demo_objects)).2.

(** Rendering a record raises for neither of the two reasons it can: no
    frame of its stack has an [undefined] file name, and the location
    of every retained frame can be formatted. *)
Definition renderable (host : Host) (r : AsyncResource) : Prop :=
  (∀ s, s ∈ stacks r → fileName s ≠ FileUndefined)
  ∧ (∀ s, s ∈ retained r → ∃ loc, formatLocation host s = Ret loc).

(** The number of creations of a history whose type is not ignored. *)
Definition is_tracked_creation (n : Notification) : bool :=
  match n with
  | NInit _ type _ _ _ => negb (includes IGNORED_TYPES type)
  | NDestroy _ => false
  end.

Definition tracked_creations (ns : list Notification) : nat :=
  length (filter (λ n, is_tracked_creation n) ns).

(** The demo process after the collector has reclaimed object 100. *)
Definition demo_world_collected : World :=
  mkWorld (Error_prepareStackTrace demo_world) (asyncResources demo_world)
    (hook_enabled demo_world) (delete 100%N (objects demo_world))
    (logged demo_world).

(** ** Running monadic code *)

Create HintDb run discriminated.
#[global] Hint Unfold mbind mret M_mbind M_mret M_bind M_ret
  Outcome_mbind Outcome_ret Outcome_bind
  lift gets modify logger_error try_catch : run.

Ltac run := repeat (autounfold with run; simpl).

Lemma for_of_app {A} (xs ys : list A) (body : A → M unit) (w : World) :
  for_of (xs ++ ys) body w
  = match for_of xs body w with
    | (Ret _, w') => for_of ys body w'
    | (Throw e, w') => (Throw e, w')
    end.
Proof.
  revert w. induction xs as [|x xs IH]; intros w; simpl; [done|].
  run. destruct (body x w) as [[[]|e] w1]; [apply IH | done].
Qed.

(** ** The string builtins on examples *)

Example split_lines_crlf :
  split_lines ("a" +:+ String CR (String LF "b") +:+ String LF "c" +:+ String CR "d")
  = ["a"; "b"; "c" +:+ String CR "d"].
Proof. reflexivity. Qed.

Example trim_both_ends : trim "  const x = 1;  " = "const x = 1;".
Proof. reflexivity. Qed.

Example repeat_three : JS.repeat " " 3 = Ret "   ".
Proof. reflexivity. Qed.

(** ** Facts about the insertion-ordered map *)
Section MapFacts.

Context {V : Type}.
Implicit Types (m : list (Z * V)) (k i : Z) (v : V).

Lemma Map_keys_set k v m i :
  i ∈ Map_keys (Map_set k v m) ↔ i = k ∨ i ∈ Map_keys m.
Proof.
  unfold Map_keys. induction m as [|[k' v'] m IH]; simpl.
  - set_solver.
  - case_decide; simpl; set_solver.
Qed.

Lemma Map_keys_delete k m i :
  i ∈ Map_keys (Map_delete k m) ↔ i ≠ k ∧ i ∈ Map_keys m.
Proof.
  unfold Map_keys, Map_delete. rewrite !list_elem_of_fmap. split.
  - intros ([k' v'] & -> & Hin). apply list_elem_of_filter in Hin as [Hne Hin].
    split; [done|]. by exists (k', v').
  - intros (Hne & [k' v'] & -> & Hin). exists (k', v').
    split; [done|]. by apply list_elem_of_filter.
Qed.

Lemma Map_delete_absent k m : k ∉ Map_keys m → Map_delete k m = m.
Proof.
  unfold Map_keys, Map_delete. induction m as [|[k' v'] m IH]; intros Hk; [done|].
  rewrite filter_cons. simpl in *. case_decide.
  - f_equal. apply IH. set_solver.
  - set_solver.
Qed.

Lemma Map_set_fresh k v m : k ∉ Map_keys m → Map_set k v m = m ++ [(k, v)].
Proof.
  unfold Map_keys. induction m as [|[k' v'] m IH]; intros Hk; simpl; [done|].
  simpl in Hk. case_decide; [set_solver|]. f_equal. apply IH. set_solver.
Qed.

Lemma Map_set_NoDup k v m : NoDup (Map_keys m) → NoDup (Map_keys (Map_set k v m)).
Proof.
  unfold Map_keys. induction m as [|[k' v'] m IH]; simpl; intros Hnd.
  - apply NoDup_singleton.
  - apply NoDup_cons in Hnd as [Hk' Hnd]. case_decide; simpl.
    + subst. by apply NoDup_cons.
    + apply NoDup_cons. split; [|by apply IH].
      intros Hin. apply (Map_keys_set k v m k') in Hin. set_solver.
Qed.

Lemma Map_delete_NoDup k m : NoDup (Map_keys m) → NoDup (Map_keys (Map_delete k m)).
Proof.
  unfold Map_keys, Map_delete. induction m as [|[k' v'] m IH]; simpl; intros Hnd; [done|].
  apply NoDup_cons in Hnd as [Hk' Hnd]. rewrite filter_cons. case_decide; simpl.
  - apply NoDup_cons. split; [|by apply IH].
    intros Hin. apply (Map_keys_delete k m k') in Hin. set_solver.
  - by apply IH.
Qed.

End MapFacts.

(** ** The stack capturer *)

(** On a normal return the formatter slot holds what it held before, and
    nothing else of the state has moved. *)
Lemma captureStackTraces_returns (target : option (list CallSite)) (w : World) :
  captureStackTraces (Ret target) w
  = (Ret (target_stack target), with_formatter (Error_prepareStackTrace w) w).
Proof. reflexivity. Qed.

Lemma with_formatter_same (w : World) :
  with_formatter (Error_prepareStackTrace w) w = w.
Proof. by destruct w. Qed.

(** When the host raises during the capture, the exception leaves
    [captureStackTraces] before the line that puts the formatter back. *)
Lemma captureStackTraces_raises (e : Exn) (w : World) :
  captureStackTraces (Throw e) w = (Throw e, with_formatter OwnFormatter w).
Proof. reflexivity. Qed.

(** ** The lifecycle callbacks *)

Lemma includes_spec (xs : list string) (x : string) :
  includes xs x = true ↔ x ∈ xs.
Proof. unfold includes. apply bool_decide_eq_true. Qed.

Lemma init_ignored asyncId type trig resource ctx (w : World) :
  type ∈ IGNORED_TYPES →
  init asyncId type trig resource ctx w = (Ret tt, w).
Proof.
  intros Hin. unfold init. apply includes_spec in Hin. by rewrite Hin.
Qed.

Lemma init_tracked asyncId type trig resource sites (w : World) :
  type ∉ IGNORED_TYPES →
  init asyncId type trig resource (Ret (Some sites)) w
  = (Ret tt,
     with_asyncResources
       (Map_set asyncId
          {| type := type; resourceRef := WeakRef_new resource;
             stacks := drop 1 (prepareStackTrace sites) |}
          (asyncResources w)) w).
Proof.
  intros Hin. unfold init.
  destruct (includes IGNORED_TYPES type) eqn:E; [by apply includes_spec in E|].
  run. by destruct w.
Qed.

Lemma init_capture_raises asyncId type trig resource e (w : World) :
  type ∉ IGNORED_TYPES →
  init asyncId type trig resource (Throw e) w
  = (Throw e, with_formatter OwnFormatter w).
Proof.
  intros Hin. unfold init.
  destruct (includes IGNORED_TYPES type) eqn:E; [by apply includes_spec in E|].
  reflexivity.
Qed.

Lemma init_no_stack asyncId type trig resource (w : World) :
  type ∉ IGNORED_TYPES →
  ∃ e, init asyncId type trig resource (Ret None) w = (Throw e, w).
Proof.
  intros Hin. unfold init.
  destruct (includes IGNORED_TYPES type) eqn:E; [by apply includes_spec in E|].
  eexists. run. by destruct w.
Qed.

Lemma destroy_absent asyncId (w : World) :
  asyncId ∉ Map_keys (asyncResources w) → destroy asyncId w = (Ret tt, w).
Proof.
  intros Hk. unfold destroy. run. rewrite Map_delete_absent by done. by destruct w.
Qed.

(** ** The registry against the history of notifications *)

Lemma tracked_live_nil (i : Z) : ¬ tracked_live [] i.
Proof. intros (k & ? & ? & ? & ? & Hk & _). by rewrite lookup_nil in Hk. Qed.

Lemma tracked_live_snoc_init ns i type trig resource ctx (j : Z) :
  tracked_live (ns ++ [NInit i type trig resource ctx]) j
  ↔ (j = i ∧ type ∉ IGNORED_TYPES) ∨ tracked_live ns j.
Proof.
  split.
  - intros (k & ty & tr & rs & cx & Hk & Hty & Hlater).
    destruct (decide (k < length ns)%nat) as [Hlt|Hge].
    + right. exists k, ty, tr, rs, cx. rewrite lookup_app_l in Hk by done.
      split_and!; [done..|]. intros j' Hj' Hd. apply (Hlater j' Hj').
      by apply lookup_app_l_Some.
    + left. rewrite lookup_app_r in Hk by lia.
      destruct (k - length ns)%nat; simpl in Hk; [|by rewrite lookup_nil in Hk].
      by simplify_eq.
  - intros [[-> Hty]|(k & ty & tr & rs & cx & Hk & Hty & Hlater)].
    + exists (length ns), type, trig, resource, ctx. split_and!; [|done|].
      * by rewrite list_lookup_middle.
      * intros j' Hj'. rewrite lookup_ge_None_2; [done|]. rewrite length_app. simpl. lia.
    + exists k, ty, tr, rs, cx. split_and!; [by apply lookup_app_l_Some|done|].
      intros j' Hj' Hd. destruct (decide (j' < length ns)%nat).
      * rewrite lookup_app_l in Hd by done. by apply (Hlater j').
      * rewrite lookup_app_r in Hd by lia.
        destruct (j' - length ns)%nat; simpl in Hd; [done|by rewrite lookup_nil in Hd].
Qed.

Lemma tracked_live_snoc_destroy ns i (j : Z) :
  tracked_live (ns ++ [NDestroy i]) j ↔ j ≠ i ∧ tracked_live ns j.
Proof.
  split.
  - intros (k & ty & tr & rs & cx & Hk & Hty & Hlater).
    destruct (decide (k < length ns)%nat) as [Hlt|Hge].
    + split.
      * intros ->. apply (Hlater (length ns) Hlt). by rewrite list_lookup_middle.
      * exists k, ty, tr, rs, cx. rewrite lookup_app_l in Hk by done.
        split_and!; [done..|]. intros j' Hj' Hd. apply (Hlater j' Hj').
        by apply lookup_app_l_Some.
    + rewrite lookup_app_r in Hk by lia.
      destruct (k - length ns)%nat; simpl in Hk; [done|by rewrite lookup_nil in Hk].
  - intros [Hne (k & ty & tr & rs & cx & Hk & Hty & Hlater)].
    exists k, ty, tr, rs, cx. split_and!; [by apply lookup_app_l_Some|done|].
    intros j' Hj' Hd. destruct (decide (j' < length ns)%nat).
    + rewrite lookup_app_l in Hd by done. by apply (Hlater j').
    + rewrite lookup_app_r in Hd by lia.
      destruct (j' - length ns)%nat; simpl in Hd; [by simplify_eq|by rewrite lookup_nil in Hd].
Qed.

Lemma notify_init_captured i type trig resource ctx (w : World) :
  hook_enabled w = true →
  creation_captured (NInit i type trig resource ctx) →
  ∃ w', notify (NInit i type trig resource ctx) w = (Ret tt, w') ∧
        hook_enabled w' = true ∧
        ∀ j, j ∈ Map_keys (asyncResources w')
             ↔ (j = i ∧ type ∉ IGNORED_TYPES) ∨ j ∈ Map_keys (asyncResources w).
Proof.
  intros Hen Hcap. unfold notify. rewrite Hen.
  destruct (decide (type ∈ IGNORED_TYPES)) as [Hig|Hig].
  - exists w. rewrite init_ignored by done. split_and!; [done..|]. intros j. tauto.
  - destruct Hcap as [?|[sites ->]]; [done|].
    rewrite init_tracked by done. eexists. split_and!; [done..|].
    intros j. simpl. rewrite Map_keys_set. tauto.
Qed.

Lemma notify_destroy i (w : World) :
  hook_enabled w = true →
  ∃ w', notify (NDestroy i) w = (Ret tt, w') ∧
        hook_enabled w' = true ∧
        ∀ j, j ∈ Map_keys (asyncResources w')
             ↔ j ≠ i ∧ j ∈ Map_keys (asyncResources w).
Proof.
  intros Hen. unfold notify. rewrite Hen. eexists. split_and!; [done..|].
  intros j. simpl. apply Map_keys_delete.
Qed.

(** Every callback of a history whose creations are captured returns,
    and the keys of the registry are the tracked live ids. *)
Lemma deliver_tracks f objs (ns : list Notification) :
  Forall creation_captured ns →
  ∃ w, deliver ns (loaded f objs) = (Ret tt, w) ∧
       hook_enabled w = true ∧
       ∀ i, i ∈ Map_keys (asyncResources w) ↔ tracked_live ns i.
Proof.
  induction ns as [|n ns IH] using rev_ind; intros Hcap.
  - exists (loaded f objs). split_and!; [done..|]. intros i. split.
    + simpl. by intros ?%elem_of_nil.
    + by intros ?%tracked_live_nil.
  - apply Forall_app in Hcap as [Hns Hn]. rewrite Forall_singleton in Hn.
    destruct (IH Hns) as (w & Hrun & Hen & Hkeys).
    unfold deliver in *. rewrite for_of_app, Hrun. simpl.
    destruct n as [i type trig resource ctx|i].
    + destruct (notify_init_captured i type trig resource ctx w Hen Hn)
        as (w' & Hrun' & Hen' & Hkeys').
      exists w'. run. rewrite Hrun'. split_and!; [done..|].
      intros j. rewrite Hkeys', tracked_live_snoc_init, Hkeys. tauto.
    + destruct (notify_destroy i w Hen) as (w' & Hrun' & Hen' & Hkeys').
      exists w'. run. rewrite Hrun'. split_and!; [done..|].
      intros j. rewrite Hkeys', tracked_live_snoc_destroy, Hkeys. tauto.
Qed.

(** The callbacks keep the keys of the registry pairwise distinct, as
    the keys of a [Map] are. *)
Lemma notify_keys_NoDup (n : Notification) (w : World) :
  NoDup (Map_keys (asyncResources w)) →
  NoDup (Map_keys (asyncResources (notify n w).2)).
Proof.
  intros Hnd. unfold notify. destruct (hook_enabled w); [|done].
  destruct n as [i type trig resource ctx|i].
  - destruct (decide (type ∈ IGNORED_TYPES)) as [Hig|Hig].
    + by rewrite init_ignored.
    + destruct ctx as [[sites|]|e].
      * rewrite init_tracked by done. simpl. by apply Map_set_NoDup.
      * by destruct (init_no_stack i type trig resource w Hig) as [e ->].
      * by rewrite init_capture_raises.
  - simpl. by apply Map_delete_NoDup.
Qed.

Lemma live_resources_snoc (ns : list Notification) (n : Notification) :
  live_resources (ns ++ [n]) = live_step (live_resources ns) n.
Proof. unfold live_resources. by rewrite foldl_app. Qed.

Lemma ids_unique_snoc (ns : list Notification) (n : Notification) :
  ids_unique (ns ++ [n]) →
  ids_unique ns
  ∧ ∀ i type trig resource ctx,
      n = NInit i type trig resource ctx → live_resources ns !! i = None.
Proof.
  intros Huniq. split.
  - intros k i type trig resource ctx Hk.
    specialize (Huniq k i type trig resource ctx).
    rewrite take_app_le in Huniq by (apply Nat.lt_le_incl; by eapply lookup_lt_Some).
    apply Huniq. by apply lookup_app_l_Some.
  - intros i type trig resource ctx ->.
    specialize (Huniq (length ns) i type trig resource ctx).
    rewrite take_app_length in Huniq. apply Huniq. by rewrite list_lookup_middle.
Qed.

(** With unique ids, the tracked live ids are the ids of the resources
    alive whose type is not ignored. *)
Lemma tracked_live_unique_ids (ns : list Notification) (i : Z) :
  ids_unique ns →
  tracked_live ns i
  ↔ ∃ type, live_resources ns !! i = Some type ∧ type ∉ IGNORED_TYPES.
Proof.
  revert i. induction ns as [|n ns IH] using rev_ind; intros i Huniq.
  - split; [by intros ?%tracked_live_nil|]. by intros (? & ? & _).
  - apply ids_unique_snoc in Huniq as [Hns Hfresh].
    rewrite live_resources_snoc. destruct n as [j type trig resource ctx|j]; simpl.
    + rewrite tracked_live_snoc_init, (IH i Hns).
      specialize (Hfresh j type trig resource ctx eq_refl).
      destruct (decide (i = j)) as [->|Hne].
      * rewrite lookup_insert_eq, Hfresh. split.
        -- intros [[_ Hty]|(? & [=] & _)]. eauto.
        -- intros (? & [= <-] & Hty). by left.
      * rewrite lookup_insert_ne by done. split; [|by right].
        by intros [[? _]|?].
    + rewrite tracked_live_snoc_destroy, (IH i Hns).
      destruct (decide (i = j)) as [->|Hne].
      * rewrite lookup_delete_eq. split; [by intros [? _]|by intros (? & [=] & _)].
      * rewrite lookup_delete_ne by done. tauto.
Qed.

(** C2, as amended.  For every history of notifications delivered from
    module load in which the stack of each tracked creation is captured,
    all callbacks return and the registry's key set is exactly the set
    of ids with a tracked creation not followed by a destroy.  A
    creation with an ignored type leaves the state as it is; so does the
    destroy of a resource alive with an ignored type, ids being unique
    among the resources alive; and so does a destroy of an id that is
    absent from the registry. *)
Theorem registry_keys_are_tracked_live f objs (ns : list Notification) :
  Forall creation_captured ns →
  ∃ w, deliver ns (loaded f objs) = (Ret tt, w) ∧
       (∀ i, i ∈ Map_keys (asyncResources w) ↔ tracked_live ns i) ∧
       (∀ i type trig resource ctx,
           type ∈ IGNORED_TYPES →
           notify (NInit i type trig resource ctx) w = (Ret tt, w)) ∧
       (∀ i type,
           ids_unique ns →
           live_resources ns !! i = Some type →
           type ∈ IGNORED_TYPES →
           notify (NDestroy i) w = (Ret tt, w)) ∧
       (∀ i, i ∉ Map_keys (asyncResources w) →
             notify (NDestroy i) w = (Ret tt, w)).
Proof.
  intros Hcap. destruct (deliver_tracks f objs ns Hcap) as (w & Hrun & Hen & Hkeys).
  assert (Habsent : ∀ i, i ∉ Map_keys (asyncResources w) →
                         notify (NDestroy i) w = (Ret tt, w)).
  { intros i Hi. unfold notify. rewrite Hen. by apply destroy_absent. }
  exists w. split_and!; [done..| | |done].
  - intros i type trig resource ctx Hig. unfold notify. rewrite Hen.
    by apply init_ignored.
  - intros i type Huniq Hlive Hig. apply Habsent.
    rewrite Hkeys, (tracked_live_unique_ids ns i Huniq).
    intros (type' & Hlive' & Hty). by simplify_eq.
Qed.

Lemma demo_history_ids_unique : ids_unique demo_history.
Proof.
  intros k i type trig resource ctx Hk.
  do 6 (destruct k as [|k]; [simpl in Hk; by simplify_eq|]).
  done.
Qed.

Lemma registry_keys_are_tracked_live_witness :
  Forall creation_captured demo_history
  ∧ live_resources demo_history !! 2 = Some "TIMERWRAP"
  ∧ ∃ w, deliver demo_history (loaded NoFormatter demo_objects) = (Ret tt, w)
         ∧ (∀ i, i ∈ Map_keys (asyncResources w) ↔ tracked_live demo_history i)
         ∧ notify (NDestroy 2) w = (Ret tt, w).
Proof.
  assert (Hcap : Forall creation_captured demo_history).
  { unfold demo_history, demo_ctx. repeat (apply Forall_cons; split); [..|apply Forall_nil]; simpl.
    all: first [done | by right; eauto | left; unfold IGNORED_TYPES; set_solver]. }
  split; [exact Hcap|]. split; [reflexivity|].
  destruct (registry_keys_are_tracked_live NoFormatter demo_objects demo_history Hcap)
    as (w & Hrun & Hkeys & _ & Hdestroy & _).
  exists w. split_and!; [exact Hrun|exact Hkeys|].
  apply (Hdestroy 2 "TIMERWRAP" demo_history_ids_unique); [reflexivity|].
  unfold IGNORED_TYPES. set_solver.
Defined.

(** C2 as stated fails when a tracked creation happens in a context in
    which the stack cannot be captured: [init] raises before it stores
    the record, so the resource is created and not destroyed, yet its id
    is no key of the registry. *)
Lemma registry_misses_creation_when_capture_raises :
  let ns := [NInit 7 "Timeout" 0 100%N
               (Throw (RangeError "Maximum call stack size exceeded"))] in
  let w := (deliver ns (loaded NoFormatter demo_objects)).2 in
  ¬ (∀ i, i ∈ Map_keys (asyncResources w) ↔ tracked_live ns i).
Proof.
  intros ns w Hall. assert (Hlive : tracked_live ns 7).
  { exists 0%nat, "Timeout", 0, 100%N, (Throw (RangeError "Maximum call stack size exceeded")).
    split_and!; [done| |].
    - unfold IGNORED_TYPES. set_solver.
    - intros [|j] Hj; [lia|]. done. }
  apply Hall in Hlive. vm_compute in Hlive. by apply elem_of_nil in Hlive.
Qed.

(** C3.  The capturer evaluated in a call context in which the host
    raises during [Error.captureStackTrace], with a formatter of the
    program installed beforehand: the exception leaves the function and
    the global slot holds this module's formatter, not the one from
    before the call. *)
Theorem captureStackTraces_formatter_not_restored_on_raise :
  let w := loaded (ForeignFormatter "userland") demo_objects in
  let e := RangeError "Maximum call stack size exceeded" in
  ∃ w', captureStackTraces (Throw e) w = (Throw e, w') ∧
        Error_prepareStackTrace w' = OwnFormatter ∧
        Error_prepareStackTrace w' ≠ Error_prepareStackTrace w.
Proof.
  intros w e. exists (with_formatter OwnFormatter w).
  split_and!; [apply captureStackTraces_raises|done|done].
Qed.

(** On the path where nothing raises the slot is put back, for every
    state and every captured stack. *)
Lemma captureStackTraces_restores_on_return target (w : World) :
  ∃ traces w', captureStackTraces (Ret target) w = (Ret traces, w') ∧
               Error_prepareStackTrace w' = Error_prepareStackTrace w ∧
               w' = w.
Proof.
  eexists _, _. rewrite captureStackTraces_returns. split_and!; [done..|].
  apply with_formatter_same.
Qed.

(** C8, as amended.  [init] returns without raising exactly when the
    type is ignored or the host attaches a stack to the capture target;
    it has no handler of its own, so when it raises, no record has been
    stored. *)
Theorem init_returns_iff_stack_captured i type trig resource ctx (w : World) :
  ((∃ w', init i type trig resource ctx w = (Ret tt, w'))
   ↔ type ∈ IGNORED_TYPES ∨ ∃ sites, ctx = Ret (Some sites))
  ∧ (∀ e w', init i type trig resource ctx w = (Throw e, w') →
             asyncResources w' = asyncResources w).
Proof.
  destruct (decide (type ∈ IGNORED_TYPES)) as [Hig|Hig].
  { rewrite init_ignored by done. split; [|done]. split; [by left|by exists w]. }
  destruct ctx as [[sites|]|e]; simpl.
  - rewrite init_tracked by done. split; [|done]. split; [right|]; eauto.
  - destruct (init_no_stack i type trig resource w Hig) as [e ->].
    split; [|by intros ?? [= _ <-]].
    split; [by intros [? [=]]|]. by intros [?|[? [=]]].
  - rewrite init_capture_raises by done. split; [|by intros ?? [= _ <-]].
    split; [by intros [? [=]]|]. by intros [?|[? [=]]].
Qed.

(** C8 as stated fails: a creation in a context in which the capture
    raises makes [init] raise. *)
Lemma init_raises_when_capture_raises :
  ¬ (∀ i type trig resource ctx (w : World),
        ∃ w', init i type trig resource ctx w = (Ret tt, w')).
Proof.
  intros Hall.
  destruct (Hall 7 "Timeout" 0 100%N
              (Throw (RangeError "Maximum call stack size exceeded"))
              (loaded NoFormatter demo_objects)) as [w' Hrun].
  vm_compute in Hrun. discriminate.
Qed.

(** ** The liveness filter *)

Lemma demo_world_registry :
  asyncResources demo_world = [(1, demo_tcp); (3, demo_timeout); (5, demo_immediate)].
Proof. reflexivity. Qed.

Lemma demo_world_objects : objects demo_world = demo_objects.
Proof. reflexivity. Qed.

Lemma isActive_spec (objs : gmap N Resource) (r : AsyncResource) :
  isActive objs r = true
  ↔ ∃ resource, deref objs (resourceRef r) = Some resource ∧ reports_refd resource.
Proof.
  unfold isActive, reports_refd, hasRef_optional_call, nullish_coalesce.
  destruct (deref objs (resourceRef r)) as [[member]|]; simpl.
  - split.
    + intros Hact. eexists; split; [done|]. simpl.
      destruct member as [|answer]; [done|].
      destruct (nullish answer); [by left|by right].
    + intros (resource & [= <-] & Hrefd). simpl in Hrefd.
      destruct member as [|answer]; [done|].
      destruct Hrefd as [Hn|Hb]; [by rewrite Hn|].
      by destruct (nullish answer).
  - split; [done|]. by intros (? & [=] & _).
Qed.

Lemma elem_of_activeAsyncResources (w : World) (r : AsyncResource) :
  r ∈ activeAsyncResources w
  ↔ r ∈ Map_values (asyncResources w) ∧ isActive (objects w) r = true.
Proof.
  unfold activeAsyncResources. rewrite list_elem_of_filter, Is_true_true. tauto.
Qed.

(** C1.  A record of the snapshot passes the liveness filter if and only
    if its weak reference still resolves to an object and that object
    presents itself as ref'd; with a reference that resolves, a liveness
    query answering [false] excludes the record and the absence of any
    liveness query includes it.  The filter lets through nothing that is
    not in the snapshot. *)
Theorem liveness_filter_keeps_refd_records (w : World) (r : AsyncResource) :
  r ∈ Map_values (asyncResources w) →
  (r ∈ activeAsyncResources w
   ↔ ∃ resource, deref (objects w) (resourceRef r) = Some resource
                 ∧ reports_refd resource)
  ∧ (∀ resource,
        deref (objects w) (resourceRef r) = Some resource →
        hasRef resource = HasRefMethod (VBool false) →
        r ∉ activeAsyncResources w)
  ∧ (∀ resource,
        deref (objects w) (resourceRef r) = Some resource →
        hasRef resource = NoHasRef →
        r ∈ activeAsyncResources w)
  ∧ (∀ r', r' ∈ activeAsyncResources w → r' ∈ Map_values (asyncResources w)).
Proof.
  intros Hin. split_and!.
  - rewrite elem_of_activeAsyncResources, isActive_spec. tauto.
  - intros resource Hderef Hquery.
    rewrite elem_of_activeAsyncResources, isActive_spec.
    intros (_ & resource' & Hderef' & Hrefd). simplify_eq.
    unfold reports_refd in Hrefd. rewrite Hquery in Hrefd. simpl in Hrefd.
    by destruct Hrefd.
  - intros resource Hderef Hquery.
    rewrite elem_of_activeAsyncResources, isActive_spec. split; [done|].
    exists resource. split; [done|]. unfold reports_refd. by rewrite Hquery.
  - intros r'. rewrite elem_of_activeAsyncResources. tauto.
Qed.

Lemma liveness_filter_keeps_refd_records_witness :
  demo_tcp ∈ Map_values (asyncResources demo_world)
  ∧ demo_tcp ∈ activeAsyncResources demo_world
  ∧ demo_immediate ∉ activeAsyncResources demo_world.
Proof.
  assert (Hin : ∀ r, r ∈ [demo_tcp; demo_timeout; demo_immediate] →
                     r ∈ Map_values (asyncResources demo_world)).
  { intros r Hr. by rewrite demo_world_registry. }
  split; [apply Hin, list_elem_of_here|]. split.
  - apply (liveness_filter_keeps_refd_records demo_world demo_tcp
             (Hin _ (list_elem_of_here _ _)))
      with (resource := {| hasRef := NoHasRef |}); reflexivity.
  - apply (liveness_filter_keeps_refd_records demo_world demo_immediate)
      with (resource := {| hasRef := HasRefMethod (VBool false) |});
      [apply Hin; do 2 apply list_elem_of_further; apply list_elem_of_here
      |reflexivity..].
Defined.

(** C9.  Filtering the outcome of the liveness filter once more, against
    the same objects, changes nothing. *)
Theorem liveness_filter_idempotent (w : World) :
  filter (λ r, isActive (objects w) r) (activeAsyncResources w)
  = activeAsyncResources w.
Proof.
  unfold activeAsyncResources.
  induction (Map_values (asyncResources w)) as [|r rs IH]; [done|].
  rewrite (filter_cons _ r rs).
  destruct (decide (isActive (objects w) r)) as [Hr|Hr]; [|exact IH].
  rewrite filter_cons, decide_True by done. by rewrite IH.
Qed.

(** C10.  A resource whose liveness query exists but answers with
    [undefined] or [null] is kept by the filter, like one without any
    query. *)
Theorem nullish_liveness_answer_counts_as_refd
    (w : World) (r : AsyncResource) (resource : Resource) (answer : Value) :
  r ∈ Map_values (asyncResources w) →
  deref (objects w) (resourceRef r) = Some resource →
  hasRef resource = HasRefMethod answer →
  answer = VUndefined ∨ answer = VNull →
  isActive (objects w) r = true ∧ r ∈ activeAsyncResources w.
Proof.
  intros Hin Hderef Hquery Hnull.
  assert (Hact : isActive (objects w) r = true).
  { unfold isActive, hasRef_optional_call. rewrite Hderef, Hquery.
    by destruct Hnull as [-> | ->]. }
  split; [done|]. by apply elem_of_activeAsyncResources.
Qed.

Lemma nullish_liveness_answer_counts_as_refd_witness :
  demo_timeout ∈ Map_values (asyncResources demo_world)
  ∧ deref (objects demo_world) (resourceRef demo_timeout)
    = Some {| hasRef := HasRefMethod VNull |}
  ∧ isActive (objects demo_world) demo_timeout = true
  ∧ demo_timeout ∈ activeAsyncResources demo_world.
Proof.
  assert (Hin : demo_timeout ∈ Map_values (asyncResources demo_world)).
  { rewrite demo_world_registry. apply list_elem_of_further, list_elem_of_here. }
  split; [exact Hin|]. split; [reflexivity|].
  apply (nullish_liveness_answer_counts_as_refd demo_world demo_timeout
           {| hasRef := HasRefMethod VNull |} VNull Hin);
    [reflexivity | reflexivity | by right].
Defined.

(** ** Strings *)

Lemma append_cons (c : ascii) (s t : string) : String c s +:+ t = String c (s +:+ t).
Proof. reflexivity. Qed.

Lemma append_empty_l (t : string) : "" +:+ t = t.
Proof. reflexivity. Qed.

Lemma append_empty_r (s : string) : s +:+ "" = s.
Proof. induction s as [|c s IH]; [done|]. by rewrite append_cons, IH. Qed.

Lemma append_assoc (s1 s2 s3 : string) : (s1 +:+ s2) +:+ s3 = s1 +:+ (s2 +:+ s3).
Proof.
  induction s1 as [|c s1 IH]; [done|]. by rewrite !append_cons, IH.
Qed.

Lemma length_append (s1 s2 : string) :
  String.length (s1 +:+ s2) = (String.length s1 + String.length s2)%nat.
Proof.
  induction s1 as [|c s1 IH]; [done|]. rewrite append_cons. simpl. by rewrite IH.
Qed.

Lemma spaces_S (n : nat) : spaces (S n) = " " +:+ spaces n.
Proof.
  unfold spaces. simpl. destruct (replicate n " ") eqn:E; [|done].
  by destruct n.
Qed.

Lemma length_spaces (n : nat) : String.length (spaces n) = n.
Proof.
  induction n as [|n IH]; [done|]. by rewrite spaces_S, length_append, IH.
Qed.

Lemma startsWith_spec (s p : string) :
  startsWith s p = true ↔ ∃ rest, s = p +:+ rest.
Proof.
  unfold startsWith. revert s. induction p as [|c p IH]; intros s.
  - split; [by exists s|]. by destruct s.
  - destruct s as [|c' s]; simpl.
    + split; [done|]. by intros [? [=]].
    + destruct (ascii_dec c c') as [->|Hne].
      * rewrite IH. split; intros [rest Hrest]; exists rest.
        -- by rewrite append_cons, Hrest.
        -- rewrite append_cons in Hrest. by simplify_eq.
      * split; [done|]. intros [rest Hrest]. rewrite append_cons in Hrest.
        by simplify_eq.
Qed.

Lemma repeat_space (n : Z) :
  0 ≤ n → JS.repeat " " n = Ret (spaces (Z.to_nat n)).
Proof.
  intros Hn. unfold JS.repeat. by rewrite (proj2 (Z.ltb_ge n 0)).
Qed.

(** ** The renderer *)
Section RendererFacts.

Variable host : Host.

Lemma with_logged_twice (l1 l2 : list string) (w : World) :
  with_logged l2 (with_logged l1 w) = with_logged l2 w.
Proof. done. Qed.

Lemma logged_with_logged (l : list string) (w : World) :
  logged (with_logged l w) = l.
Proof. done. Qed.

Lemma with_logged_same (w : World) : with_logged (logged w ++ []) w = w.
Proof. destruct w. unfold with_logged. simpl. by rewrite app_nil_r. Qed.

Lemma shown_frame_spec (s : StackFrame) :
  shown_frame s = true ↔ fileName s ≠ FileUndefined ∧ ¬ host_internal s.
Proof.
  unfold shown_frame, host_internal. destruct (fileName s) as [| |p].
  - split; [done|]. intros [_ Hni]. destruct Hni. by left.
  - split; [done|]. by intros [? _].
  - rewrite negb_true_iff. split.
    + intros Hp. split; [done|]. intros [?|[rest [= ->]]]; [done|].
      assert (startsWith ("node:" +:+ rest) "node:" = true) as Hs
        by (apply startsWith_spec; eauto).
      congruence.
    + intros [_ Hni]. destruct (startsWith p "node:") eqn:E; [|done].
      apply startsWith_spec in E as [rest ->]. destruct Hni. right. eauto.
Qed.

Lemma elem_of_retained (r : AsyncResource) (s : StackFrame) :
  s ∈ retained r
  ↔ s ∈ stacks r ∧ fileName s ≠ FileUndefined ∧ ¬ host_internal s.
Proof.
  unfold retained. rewrite list_elem_of_filter, Is_true_true, shown_frame_spec. tauto.
Qed.

Lemma keepFrame_defined (s : StackFrame) :
  fileName s ≠ FileUndefined → keepFrame s = Ret (shown_frame s).
Proof. unfold keepFrame, shown_frame. by destruct (fileName s). Qed.

Lemma keepFrame_undefined (s : StackFrame) :
  fileName s = FileUndefined → ∃ e, keepFrame s = Throw e.
Proof. unfold keepFrame. intros ->. eauto. Qed.

(** The filter of [printStacks] raises exactly when some frame has an
    [undefined] file name; otherwise it keeps the frames whose file name
    is a string that does not begin with the prefix. *)
Lemma Array_filter_keepFrame (frames : list StackFrame) :
  match Array_filter keepFrame frames with
  | Ret kept =>
      kept = filter (λ s, shown_frame s) frames
      ∧ ∀ s, s ∈ frames → fileName s ≠ FileUndefined
  | Throw _ => ∃ s, s ∈ frames ∧ fileName s = FileUndefined
  end.
Proof.
  induction frames as [|s frames IH]; simpl.
  - split; [done|]. by intros s ?%elem_of_nil.
  - destruct (decide (fileName s = FileUndefined)) as [Hundef|Hdef].
    + destruct (keepFrame_undefined s Hundef) as [e ->]. run.
      exists s. split; [by left|done].
    + rewrite (keepFrame_defined s Hdef). run. rewrite filter_cons.
      destruct (Array_filter keepFrame frames) as [kept|e].
      * destruct IH as [-> Hdef']. split.
        -- by destruct (shown_frame s).
        -- intros s' [->|Hin]%elem_of_cons; [done|by apply Hdef'].
      * destruct IH as (s' & Hin & Hs'). exists s'. split; [by right|done].
Qed.

Lemma Array_filter_keepFrame_returns (r : AsyncResource) (kept : list StackFrame) :
  Array_filter keepFrame (stacks r) = Ret kept →
  kept = retained r ∧ ∀ s, s ∈ stacks r → fileName s ≠ FileUndefined.
Proof.
  intros Hf. pose proof (Array_filter_keepFrame (stacks r)) as H.
  by rewrite Hf in H.
Qed.

Lemma Array_filter_keepFrame_defined (r : AsyncResource) :
  (∀ s, s ∈ stacks r → fileName s ≠ FileUndefined) →
  Array_filter keepFrame (stacks r) = Ret (retained r).
Proof.
  intros Hdef. pose proof (Array_filter_keepFrame (stacks r)) as H.
  destruct (Array_filter keepFrame (stacks r)) as [kept|e].
  - by destruct H as [-> _].
  - destruct H as (s & Hin & Hs). by destruct (Hdef s Hin).
Qed.

Lemma formatLocation_location (s : StackFrame) (loc : string) :
  formatLocation host s = Ret loc → location host s = loc.
Proof. unfold location. by intros ->. Qed.

(** A formatted location is the shown path, a colon and the line
    number. *)
Lemma formatLocation_returns (s : StackFrame) (loc : string) :
  formatLocation host s = Ret loc →
  ∃ filePath,
    formatFilePath host (fileName s) = Ret filePath
    ∧ loc = filePath +:+ ":" +:+ match lineNumber s with
                                 | Some n => pretty n
                                 | None => "null"
                                 end.
Proof.
  unfold formatLocation. destruct (formatFilePath host (fileName s)) as [filePath|e];
    run; [|done].
  intros [= <-]. exists filePath. split; [done|]. by destruct (lineNumber s).
Qed.

Lemma widest_cons (s : StackFrame) (frames : list StackFrame) :
  widest host (s :: frames)
  = Nat.max (String.length (location host s)) (widest host frames).
Proof. reflexivity. Qed.

Lemma reduce_max (frames : list StackFrame) (init : Z) :
  0 ≤ init →
  match reduce (λ length stack,
                  location ← formatLocation host stack;
                  mret (Z.max length (Z.of_nat (String.length location))))
               frames init with
  | Ret m =>
      Forall (λ s, ∃ loc, formatLocation host s = Ret loc) frames
      ∧ m = Z.max init (Z.of_nat (widest host frames))
  | Throw _ => ∃ s, s ∈ frames ∧ ∃ e, formatLocation host s = Throw e
  end.
Proof.
  revert init. induction frames as [|s frames IH]; intros init Hinit; simpl.
  - split; [done|]. unfold widest. simpl. lia.
  - destruct (formatLocation host s) as [loc|e] eqn:Hloc; run.
    + specialize (IH (Z.max init (Z.of_nat (String.length loc)))).
      destruct (reduce _ frames _) as [m|e].
      * destruct IH as [Hall ->]; [lia|]. split.
        -- apply Forall_cons. split; [eauto|done].
        -- rewrite widest_cons, (formatLocation_location s loc Hloc). lia.
      * destruct IH as (s' & Hin & Hs'); [lia|]. exists s'. split; [by right|done].
    + exists s. split; [by left|eauto].
Qed.

Lemma maxLength_of_returns (frames : list StackFrame) (m : Z) :
  maxLength_of host frames = Ret m →
  Forall (λ s, ∃ loc, formatLocation host s = Ret loc) frames
  ∧ m = Z.of_nat (widest host frames).
Proof.
  intros Hm. pose proof (reduce_max frames 0 (Z.le_refl 0)) as H.
  unfold maxLength_of in Hm. rewrite Hm in H. destruct H as [Hall ->].
  split; [done|]. lia.
Qed.

Lemma maxLength_of_formatted (frames : list StackFrame) :
  Forall (λ s, ∃ loc, formatLocation host s = Ret loc) frames →
  maxLength_of host frames = Ret (Z.of_nat (widest host frames)).
Proof.
  intros Hall. pose proof (reduce_max frames 0 (Z.le_refl 0)) as H.
  unfold maxLength_of. destruct (reduce _ frames 0) as [m|e].
  - destruct H as [_ ->]. f_equal. lia.
  - destruct H as (s & Hin & e' & Hs). rewrite Forall_forall in Hall.
    destruct (Hall s Hin) as [loc Hloc]. congruence.
Qed.

Lemma maxLength_of_raises (frames : list StackFrame) (e : Exn) :
  maxLength_of host frames = Throw e →
  ∃ s, s ∈ frames ∧ ∃ e', formatLocation host s = Throw e'.
Proof.
  intros Hm. pose proof (reduce_max frames 0 (Z.le_refl 0)) as H.
  unfold maxLength_of in Hm. by rewrite Hm in H.
Qed.

Lemma location_le_widest (frames : list StackFrame) (s : StackFrame) :
  s ∈ frames → (String.length (location host s) ≤ widest host frames)%nat.
Proof.
  intros Hs. apply max_list_elem_of_le.
  apply list_elem_of_fmap. by exists s.
Qed.

Lemma printFrame_formatted (width : nat) (s : StackFrame) (w : World) :
  (∃ loc, formatLocation host s = Ret loc) →
  (String.length (location host s) ≤ width)%nat →
  printFrame host (Z.of_nat width) s w
  = (Ret tt, with_logged (logged w ++ [frame_line host width s]) w).
Proof.
  intros [loc Hloc] Hle. rewrite (formatLocation_location s loc Hloc) in Hle.
  unfold printFrame. run. rewrite Hloc, repeat_space by lia.
  replace (Z.to_nat (Z.of_nat width - Z.of_nat (String.length loc)))
    with (width - String.length loc)%nat by lia.
  unfold frame_line, excerpt. rewrite (formatLocation_location s loc Hloc).
  destruct (sourceLine host s) as [line|e]; [done|].
  by rewrite append_empty_r.
Qed.

Lemma for_of_printFrame (width : nat) (frames : list StackFrame) (w : World) :
  Forall (λ s, ∃ loc, formatLocation host s = Ret loc) frames →
  Forall (λ s, (String.length (location host s) ≤ width)%nat) frames →
  for_of frames (printFrame host (Z.of_nat width)) w
  = (Ret tt, with_logged (logged w ++ (frame_line host width <$> frames)) w).
Proof.
  intros Hfmt. revert w.
  induction Hfmt as [|s frames Hs Hfmt IH]; intros w Hle; simpl.
  - by rewrite with_logged_same.
  - apply Forall_cons in Hle as [Hle1 Hle].
    run. rewrite (printFrame_formatted width s w Hs Hle1), (IH _ Hle).
    rewrite with_logged_twice, logged_with_logged. by rewrite <- app_assoc.
Qed.

(** The four ways a call of [printStacks] can go. *)
Lemma printStacks_undefined (r : AsyncResource) (w : World) (e : Exn) :
  Array_filter keepFrame (stacks r) = Throw e →
  printStacks host r w = (Throw e, w).
Proof. intros Hf. unfold printStacks. run. by rewrite Hf. Qed.

Lemma printStacks_empty (r : AsyncResource) (w : World) :
  Array_filter keepFrame (stacks r) = Ret [] →
  printStacks host r w
  = (Ret tt,
     with_logged (logged w ++ [""; "# " +:+ type r; "(unknown stack trace)"]) w).
Proof.
  intros Hf. unfold printStacks. run. rewrite Hf. simpl.
  rewrite with_logged_twice. simpl. by rewrite <- !app_assoc.
Qed.

Lemma printStacks_unformattable
    (r : AsyncResource) (w : World) (kept : list StackFrame) (e : Exn) :
  Array_filter keepFrame (stacks r) = Ret kept →
  kept ≠ [] →
  maxLength_of host kept = Throw e →
  printStacks host r w
  = (Throw e, with_logged (logged w ++ [""; "# " +:+ type r]) w).
Proof.
  intros Hf Hne Hm. unfold printStacks. autounfold with run. cbv beta iota.
  rewrite Hf. cbv beta iota. destruct kept as [|s kept]; [done|].
  rewrite Hm. simpl. by rewrite <- !app_assoc.
Qed.

Lemma printStacks_frames
    (r : AsyncResource) (w : World) (kept : list StackFrame) (m : Z) :
  Array_filter keepFrame (stacks r) = Ret kept →
  kept ≠ [] →
  maxLength_of host kept = Ret m →
  printStacks host r w
  = (Ret tt,
     with_logged
       (logged w ++ "" :: ("# " +:+ type r)
                    :: (frame_line host (widest host kept) <$> kept)) w).
Proof.
  intros Hf Hne Hm. apply maxLength_of_returns in Hm as Hm'. destruct Hm' as [Hfmt ->].
  unfold printStacks. autounfold with run. cbv beta iota.
  rewrite Hf. cbv beta iota. destruct kept as [|s kept]; [done|].
  rewrite Hm. cbv beta iota. rewrite for_of_printFrame; [|done|].
  - simpl. rewrite with_logged_twice. simpl. by rewrite <- !app_assoc.
  - apply Forall_forall. intros s' Hs'. by apply location_le_widest.
Qed.

(** A renderable record is rendered in full, and only a renderable
    record is. *)
Lemma printStacks_renderable (r : AsyncResource) (w : World) :
  renderable host r →
  printStacks host r w
  = (Ret tt,
     with_logged (logged w ++ "" :: ("# " +:+ type r) :: block_body host r) w).
Proof.
  intros [Hdef Hfmt]. pose proof (Array_filter_keepFrame_defined r Hdef) as Hf.
  unfold block_body. destruct (retained r) as [|s kept] eqn:E.
  - by apply printStacks_empty.
  - rewrite <- E in *. eapply printStacks_frames; [done|by rewrite E|].
    apply maxLength_of_formatted, Forall_forall, Hfmt.
Qed.

Lemma printStacks_returns (r : AsyncResource) (w w' : World) :
  printStacks host r w = (Ret tt, w') → renderable host r.
Proof.
  intros Hrun. destruct (Array_filter keepFrame (stacks r)) as [kept|e] eqn:Hf.
  - destruct (Array_filter_keepFrame_returns r kept Hf) as [-> Hdef].
    split; [done|]. destruct (retained r) as [|s kept] eqn:E.
    { by intros s ?%elem_of_nil. }
    destruct (maxLength_of host (s :: kept)) as [m|e] eqn:Hm.
    + apply maxLength_of_returns in Hm as [Hfmt _]. by apply Forall_forall.
    + rewrite <- E in Hf.
      rewrite (printStacks_unformattable r w (s :: kept) e) in Hrun; [done| |done|done].
      by rewrite <- E.
  - by rewrite (printStacks_undefined r w e Hf) in Hrun.
Qed.

(** Whatever the state, [printStacks] has the same outcome and appends
    the same lines, those of [block], to the log. *)
Lemma printStacks_writes (r : AsyncResource) :
  ∃ out,
    (∀ w, printStacks host r w = (out, with_logged (logged w ++ block host r) w))
    ∧ (renderable host r → out = Ret tt)
    ∧ (out = Ret tt → renderable host r)
    ∧ (∀ e, out = Throw e →
            block host r = [] ∨ block host r = [""; "# " +:+ type r]).
Proof.
  unfold block. destruct (Array_filter keepFrame (stacks r)) as [kept|e] eqn:Hf.
  - destruct kept as [|s kept].
    + exists (Ret tt). split_and!; [|done| |done].
      * intros w. by rewrite !(printStacks_empty r _ Hf).
      * intros _. by eapply (printStacks_returns r (loaded NoFormatter ∅)), printStacks_empty.
    + destruct (maxLength_of host (s :: kept)) as [m|e] eqn:Hm.
      * exists (Ret tt). split_and!; [|done| |done].
        -- intros w. by rewrite !(printStacks_frames r _ (s :: kept) m Hf).
        -- intros _.
           by eapply (printStacks_returns r (loaded NoFormatter ∅)),
                     (printStacks_frames r _ (s :: kept) m).
      * exists (Throw e). split_and!.
        -- intros w. by rewrite !(printStacks_unformattable r _ (s :: kept) e Hf).
        -- intros Hren.
           pose proof (printStacks_renderable r (loaded NoFormatter ∅) Hren) as H1.
           by rewrite (printStacks_unformattable r _ (s :: kept) e Hf) in H1.
        -- done.
        -- intros e' _. right.
           by rewrite (printStacks_unformattable r _ (s :: kept) e Hf).
  - exists (Throw e). split_and!.
    + intros w. rewrite !(printStacks_undefined r _ e Hf). simpl.
      by rewrite with_logged_same.
    + intros Hren. pose proof (printStacks_renderable r (loaded NoFormatter ∅) Hren) as H1.
      by rewrite (printStacks_undefined r _ e Hf) in H1.
    + done.
    + intros e' _. left. by rewrite (printStacks_undefined r _ e Hf).
Qed.

Lemma block_renderable (r : AsyncResource) :
  renderable host r →
  block host r = "" :: ("# " +:+ type r) :: block_body host r.
Proof. intros Hren. unfold block. by rewrite printStacks_renderable. Qed.

End RendererFacts.

Section RendererProperties.

Variable host : Host.

Lemma sourceLine_unreadable (s : StackFrame) (path : string) :
  normalizeFilePath host (fileName s) = Ret path →
  (∃ e, readFileSync host path = Throw e)
  ∨ (∃ contents, readFileSync host path = Ret contents
                 ∧ index (split_lines contents) (default 0 (lineNumber s) - 1) = None) →
  excerpt host s = "".
Proof.
  intros Hpath Hfail. unfold excerpt, sourceLine. rewrite Hpath. run.
  destruct Hfail as [[e ->]|(contents & -> & ->)]; done.
Qed.

Lemma frame_lines_start_with_location (width : nat) (frames : list StackFrame) :
  Forall (λ s, ∃ loc, formatLocation host s = Ret loc) frames →
  Forall2 (λ s line,
             ∃ filePath rest,
               formatFilePath host (fileName s) = Ret filePath
               ∧ line = (filePath +:+ ":" +:+ match lineNumber s with
                                             | Some n => pretty n
                                             | None => "null"
                                             end) +:+ rest)
          frames (frame_line host width <$> frames).
Proof.
  intros Hfmt. apply Forall2_fmap_r, Forall_Forall2_diag.
  eapply Forall_impl; [exact Hfmt|]. intros s [loc Hloc]. simpl.
  destruct (formatLocation_returns host s loc Hloc) as (filePath & Hpath & ->).
  exists filePath. eexists. split; [done|]. unfold frame_line.
  by rewrite (formatLocation_location host s _ Hloc).
Qed.

(** C4.  Whatever [printStacks] does for a record, it only appends
    lines to the log.  When every frame of the record has a file name
    that is [null] or begins with [node:], so that no frame remains
    after dropping those, it writes the header and exactly the line
    "(unknown stack trace)" and returns, so that the next record is
    rendered.  Whenever it returns, the frames it has rendered are those
    of the stack, in their order, that are not dropped: the placeholder
    line when there is none, and otherwise one line per such frame,
    which begins with the path, a colon and the line number of that
    frame; no line stands for a dropped frame.  When it raises, it has
    written no frame line at all. *)
Theorem printStacks_drops_internal_frames (r : AsyncResource) (w : World) :
  ∃ out lines,
    printStacks host r w = (out, with_logged (logged w ++ lines) w)
    ∧ (Forall host_internal (stacks r) →
       out = Ret tt
       ∧ lines = [""; "# " +:+ type r; "(unknown stack trace)"])
    ∧ (out = Ret tt →
       ∃ body,
         lines = "" :: ("# " +:+ type r) :: body
         ∧ (∀ s, s ∈ retained r ↔ s ∈ stacks r ∧ ¬ host_internal s)
         ∧ retained r `sublist_of` stacks r
         ∧ (retained r = [] → body = ["(unknown stack trace)"])
         ∧ (retained r ≠ [] →
            Forall2 (λ s line,
                       ∃ filePath rest,
                         formatFilePath host (fileName s) = Ret filePath
                         ∧ line = (filePath +:+ ":" +:+ match lineNumber s with
                                                       | Some n => pretty n
                                                       | None => "null"
                                                       end) +:+ rest)
                    (retained r) body))
    ∧ (∀ e, out = Throw e → lines = [] ∨ lines = [""; "# " +:+ type r]).
Proof.
  destruct (printStacks_writes host r) as (out & Hrun & Hren & Hret & Hthrow).
  exists out, (block host r). split_and!.
  - apply Hrun.
  - intros Hint.
    assert (Hdef : ∀ s, s ∈ stacks r → fileName s ≠ FileUndefined).
    { intros s Hs Hundef. rewrite Forall_forall in Hint.
      destruct (Hint s Hs) as [?|[? ?]]; congruence. }
    assert (Hnone : retained r = []).
    { destruct (retained r) as [|s0 frames] eqn:E; [done|]. exfalso.
      assert (Hs : s0 ∈ retained r) by (rewrite E; apply list_elem_of_here).
      apply elem_of_retained in Hs as (Hs & _ & Hni).
      rewrite Forall_forall in Hint. by apply Hni, Hint. }
    assert (Hrenderable : renderable host r).
    { split; [done|]. rewrite Hnone. by intros s ?%elem_of_nil. }
    split; [by apply Hren|]. rewrite (block_renderable host r Hrenderable).
    unfold block_body. by rewrite Hnone.
  - intros ->. specialize (Hret eq_refl). destruct Hret as [Hdef Hfmt].
    exists (block_body host r). split_and!.
    + by apply block_renderable.
    + intros s. rewrite elem_of_retained. split; [tauto|].
      intros [Hs Hni]. split_and!; [done| |done]. by apply Hdef.
    + apply sublist_filter.
    + intros Hnil. unfold block_body. by rewrite Hnil.
    + intros Hne. unfold block_body.
      destruct (retained r) as [|s0 frames] eqn:E; [done|]. rewrite <- E in *.
      apply frame_lines_start_with_location. by apply Forall_forall.
  - exact Hthrow.
Qed.

(** C6.  When rendering reaches the frames of a record (the filter has
    returned and the common width has been computed) and the file of
    one of these frames cannot be read, or has no line at the frame's
    line number, nothing propagates: [printStacks] returns, and the line
    of that frame is its path, a colon and its line number, padded to
    the common width, with nothing after the padding. *)
Theorem unreadable_source_line_is_omitted
    (r : AsyncResource) (w : World) (kept : list StackFrame) (maxLength : Z)
    (k : nat) (s : StackFrame) (path : string) :
  Array_filter keepFrame (stacks r) = Ret kept →
  maxLength_of host kept = Ret maxLength →
  kept !! k = Some s →
  normalizeFilePath host (fileName s) = Ret path →
  (∃ e, readFileSync host path = Throw e)
  ∨ (∃ contents, readFileSync host path = Ret contents
                 ∧ index (split_lines contents) (default 0 (lineNumber s) - 1) = None) →
  ∃ body filePath loc padding,
    printStacks host r w
    = (Ret tt, with_logged (logged w ++ "" :: ("# " +:+ type r) :: body) w)
    ∧ formatFilePath host (fileName s) = Ret filePath
    ∧ loc = filePath +:+ ":" +:+ match lineNumber s with
                                 | Some n => pretty n
                                 | None => "null"
                                 end
    ∧ formatLocation host s = Ret loc
    ∧ JS.repeat " " (maxLength - Z.of_nat (String.length loc)) = Ret padding
    ∧ body !! k = Some (loc +:+ padding).
Proof.
  intros Hf Hm Hk Hpath Hfail.
  assert (Hne : kept ≠ []) by (intros ->; by rewrite lookup_nil in Hk).
  destruct (maxLength_of_returns host kept maxLength Hm) as [Hfmt ->].
  assert (Hs : s ∈ kept) by (by eapply list_elem_of_lookup_2).
  rewrite Forall_forall in Hfmt. destruct (Hfmt s Hs) as [loc Hloc].
  destruct (formatLocation_returns host s loc Hloc) as (filePath & HfilePath & Hloc_eq).
  pose proof (location_le_widest host kept s Hs) as Hle.
  rewrite (formatLocation_location host s loc Hloc) in Hle.
  exists (frame_line host (widest host kept) <$> kept), filePath, loc,
    (spaces (widest host kept - String.length loc)).
  split_and!; [|done|done|done| |].
  - by apply (printStacks_frames host r w kept (Z.of_nat (widest host kept))).
  - rewrite repeat_space by lia. do 2 f_equal. lia.
  - rewrite list_lookup_fmap, Hk. simpl. unfold frame_line.
    rewrite (formatLocation_location host s loc Hloc).
    by rewrite (sourceLine_unreadable s path Hpath Hfail), append_empty_r.
Qed.

(** C7.  When rendering reaches the frames of a record (the filter has
    returned at least one frame and the common width has been
    computed), every line of the block is the location of its frame,
    that is its path, a colon and its line number, followed by spaces,
    followed by nothing or by the separator and the source text;
    location and spaces together have the length of the longest
    location of the block, which is the computed width. *)
Theorem frame_locations_padded_to_widest
    (r : AsyncResource) (w : World) (kept : list StackFrame) (maxLength : Z) :
  Array_filter keepFrame (stacks r) = Ret kept →
  kept ≠ [] →
  maxLength_of host kept = Ret maxLength →
  ∃ body locs,
    printStacks host r w
    = (Ret tt, with_logged (logged w ++ "" :: ("# " +:+ type r) :: body) w)
    ∧ Forall2 (λ s loc,
                 formatLocation host s = Ret loc
                 ∧ ∃ filePath,
                     formatFilePath host (fileName s) = Ret filePath
                     ∧ loc = filePath +:+ ":" +:+ match lineNumber s with
                                                  | Some n => pretty n
                                                  | None => "null"
                                                  end)
              kept locs
    ∧ maxLength = Z.of_nat (max_list (String.length <$> locs))
    ∧ max_list (String.length <$> locs) ∈ String.length <$> locs
    ∧ Forall2 (λ loc line,
                 ∃ padding suffix,
                   line = (loc +:+ padding) +:+ suffix
                   ∧ (∃ n, padding = spaces n)
                   ∧ (suffix = "" ∨ ∃ text, suffix = " - " +:+ text)
                   ∧ String.length (loc +:+ padding)
                     = max_list (String.length <$> locs))
              locs body.
Proof.
  intros Hf Hne Hm.
  destruct (maxLength_of_returns host kept maxLength Hm) as [Hfmt ->].
  exists (frame_line host (widest host kept) <$> kept), (location host <$> kept).
  assert (Hw : max_list (String.length <$> (location host <$> kept))
               = widest host kept).
  { unfold widest. by rewrite <- list_fmap_compose. }
  rewrite Hw. split_and!.
  - by apply (printStacks_frames host r w kept (Z.of_nat (widest host kept))).
  - apply Forall2_fmap_r, Forall_Forall2_diag.
    eapply Forall_impl; [exact Hfmt|]. intros s [loc Hloc]. simpl.
    rewrite (formatLocation_location host s loc Hloc). split; [done|].
    by apply formatLocation_returns.
  - done.
  - rewrite <- Hw. apply max_list_elem_of. by destruct kept.
  - assert (Hall : Forall (λ s, (String.length (location host s)
                                 ≤ widest host kept)%nat) kept).
    { apply Forall_forall. intros s Hs. by apply location_le_widest. }
    clear Hw Hm. revert Hall. generalize (widest host kept). intros width Hall.
    apply Forall2_fmap, Forall_Forall2_diag.
    eapply Forall_impl; [exact Hall|]. intros s Hs. simpl in Hs. simpl.
    exists (spaces (width - String.length (location host s))), (excerpt host s).
    split_and!.
    + unfold frame_line. by rewrite append_assoc.
    + eauto.
    + unfold excerpt. destruct (sourceLine host s); eauto.
    + rewrite length_append, length_spaces. lia.
Qed.

End RendererProperties.

Lemma unreadable_source_line_is_omitted_witness :
  Array_filter keepFrame (stacks demo_tcp)
  = Ret [ {| lineNumber := Some 2; fileName := FileString "/app/server.js" |};
          demo_pool_frame ]
  ∧ maxLength_of demo_host
      [ {| lineNumber := Some 2; fileName := FileString "/app/server.js" |};
        demo_pool_frame ] = Ret 27
  ∧ ∃ body,
      printStacks demo_host demo_tcp demo_world
      = (Ret tt,
         with_logged (logged demo_world ++ "" :: ("# " +:+ type demo_tcp) :: body)
           demo_world)
      ∧ body !! 1%nat = Some "lib/connection/pool.js:1234".
Proof.
  split; [reflexivity|]. split; [reflexivity|].
  destruct (unreadable_source_line_is_omitted demo_host demo_tcp demo_world
              [ {| lineNumber := Some 2; fileName := FileString "/app/server.js" |};
                demo_pool_frame ]
              27 1 demo_pool_frame "/app/lib/connection/pool.js")
    as (body & filePath & loc & padding & Hrun & Hpath & Hloc & _ & Hpad & Hline);
    [reflexivity | reflexivity | reflexivity | reflexivity
    | left; eexists; reflexivity |].
  exists body. split; [exact Hrun|]. rewrite Hline.
  vm_compute in Hpath. injection Hpath as <-. subst loc.
  vm_compute in Hpad. injection Hpad as <-. reflexivity.
Defined.

Lemma frame_locations_padded_to_widest_witness :
  Array_filter keepFrame (stacks demo_tcp)
  = Ret [ {| lineNumber := Some 2; fileName := FileString "/app/server.js" |};
          demo_pool_frame ]
  ∧ maxLength_of demo_host
      [ {| lineNumber := Some 2; fileName := FileString "/app/server.js" |};
        demo_pool_frame ] = Ret 27
  ∧ ∃ body locs,
      printStacks demo_host demo_tcp demo_world
      = (Ret tt,
         with_logged (logged demo_world ++ "" :: ("# " +:+ type demo_tcp) :: body)
           demo_world)
      ∧ 27 = Z.of_nat (max_list (String.length <$> locs))
      ∧ Forall2 (λ loc line,
                   ∃ padding suffix,
                     line = (loc +:+ padding) +:+ suffix
                     ∧ (∃ n, padding = spaces n)
                     ∧ (suffix = "" ∨ ∃ text, suffix = " - " +:+ text)
                     ∧ String.length (loc +:+ padding)
                       = max_list (String.length <$> locs))
                locs body.
Proof.
  split; [reflexivity|]. split; [reflexivity|].
  destruct (frame_locations_padded_to_widest demo_host demo_tcp demo_world
              [ {| lineNumber := Some 2; fileName := FileString "/app/server.js" |};
                demo_pool_frame ] 27)
    as (body & locs & Hrun & _ & Hmax & _ & Hlines);
    [reflexivity | discriminate | reflexivity |].
  exists body, locs. split_and!; [exact Hrun | exact Hmax | exact Hlines].
Defined.

Example demo_block_with_frames :
  printStacks demo_host demo_tcp (loaded NoFormatter demo_objects)
  = (Ret tt,
     with_logged
       [ ""; "# TCPWRAP";
         "server.js:2                 - net.createServer().listen(0)";
         "lib/connection/pool.js:1234" ]
       (loaded NoFormatter demo_objects)).
Proof. reflexivity. Qed.

Example demo_block_without_frames :
  printStacks demo_host demo_timeout (loaded NoFormatter demo_objects)
  = (Ret tt,
     with_logged [""; "# Timeout"; "(unknown stack trace)"]
       (loaded NoFormatter demo_objects)).
Proof. reflexivity. Qed.

Example demo_block_undefined_file_name :
  printStacks demo_host
    {| type := "Timeout"; resourceRef := WeakRef_new 101%N;
       stacks := [ {| lineNumber := Some 1; fileName := FileUndefined |} ] |}
    (loaded NoFormatter demo_objects)
  = (Throw (TypeError "Cannot read properties of undefined (reading 'startsWith')"),
     loaded NoFormatter demo_objects).
Proof. reflexivity. Qed.

Example demo_block_rejected_file_url :
  printStacks demo_host demo_remote (loaded NoFormatter demo_objects)
  = (Throw (TypeError "File URL host must be localhost or empty"),
     with_logged [""; "# TCPWRAP"] (loaded NoFormatter demo_objects)).
Proof. reflexivity. Qed.

(** ** The inspection *)
Section Inspection.

Variable host : Host.

(** The loop over the active records has an outcome and appends lines
    that do not depend on the state: the blocks of the records up to
    and including the first one whose rendering raises. *)
Lemma for_of_printStacks_writes (rs : list AsyncResource) :
  ∃ out ls,
    (∀ w, for_of rs (printStacks host) w
          = (out, with_logged (logged w ++ ls) w))
    ∧ (∃ n, ls = concat (block host <$> take n rs))
    ∧ (Forall (renderable host) rs →
       out = Ret tt ∧ ls = concat (block host <$> rs)).
Proof.
  induction rs as [|r rs (out & ls & Hrun & [n Hn] & Hall)].
  - exists (Ret tt), []. split_and!.
    + intros w. simpl. by rewrite with_logged_same.
    + by exists 0%nat.
    + done.
  - destruct (printStacks_writes host r) as (out_r & Hr & Hren & Hret & _).
    destruct out_r as [[]|e].
    + exists out, (block host r ++ ls). split_and!.
      * intros w. simpl. autounfold with run. rewrite Hr, Hrun.
        rewrite with_logged_twice, logged_with_logged. by rewrite <- app_assoc.
      * exists (S n). simpl. by rewrite Hn.
      * intros [_ Hrs]%Forall_cons. destruct (Hall Hrs) as [-> ->]. done.
    + exists (Throw e), (block host r). split_and!.
      * intros w. simpl. autounfold with run. by rewrite Hr.
      * exists 1%nat. simpl. rewrite ?take_0. simpl. by rewrite app_nil_r.
      * intros [Hr' _]%Forall_cons. by specialize (Hren Hr').
Qed.

(** An inspection disables the hook and writes the summary line before
    anything else, whatever happens afterwards. *)
Lemma whyIsNodeRunning_writes (w : World) :
  ∃ out ls,
    (∀ w1, activeAsyncResources w1 = activeAsyncResources w →
           whyIsNodeRunning host w1
           = (out,
              with_logged
                (logged w1 ++ summary (length (activeAsyncResources w)) :: ls)
                (with_hook_enabled false w1)))
    ∧ (∃ n, ls = concat (block host <$> take n (activeAsyncResources w)))
    ∧ (Forall (renderable host) (activeAsyncResources w) →
       out = Ret tt ∧ ls = concat (block host <$> activeAsyncResources w)).
Proof.
  destruct (for_of_printStacks_writes (activeAsyncResources w))
    as (out & ls & Hrun & Hn & Hall).
  exists out, ls. split_and!; [|done|done].
  intros w1 Hact. unfold whyIsNodeRunning, hook_disable.
  autounfold with run. cbv beta iota.
  change (activeAsyncResources (with_hook_enabled false w1))
    with (activeAsyncResources w1).
  rewrite Hact, Hrun. rewrite with_logged_twice, logged_with_logged.
  change (logged (with_hook_enabled false w1)) with (logged w1).
  by rewrite <- app_assoc.
Qed.

Lemma deliver_three_creations f objs (a b c : Z) (ta tb tc : string)
    (tra trb trc : Z) (ra rb rc : N) (sa sb sc : list CallSite) :
  a ≠ b → a ≠ c → b ≠ c →
  ta ∉ IGNORED_TYPES → tb ∉ IGNORED_TYPES → tc ∉ IGNORED_TYPES →
  deliver [ NInit a ta tra ra (Ret (Some sa));
            NInit b tb trb rb (Ret (Some sb));
            NInit c tc trc rc (Ret (Some sc)) ] (loaded f objs)
  = (Ret tt,
     with_asyncResources
       [ (a, created_record ta ra sa); (b, created_record tb rb sb);
         (c, created_record tc rc sc) ]
       (loaded f objs)).
Proof.
  intros Hab Hac Hbc Hta Htb Htc. unfold deliver. simpl for_of.
  autounfold with run. unfold notify at 1. simpl hook_enabled. cbv iota.
  rewrite init_tracked by done. unfold notify at 1. simpl hook_enabled. cbv iota.
  rewrite init_tracked by done. unfold notify at 1. simpl hook_enabled. cbv iota.
  rewrite init_tracked by done. simpl.
  rewrite decide_False by done. simpl.
  rewrite decide_False by done. rewrite decide_False by done. done.
Qed.

(** C5, as amended.  Every inspection disables the hook and writes
    first the line "There are N handle(s) keeping the process running."
    with N the number of active records.  When rendering raises for
    none of the active records, the inspection returns after writing,
    below that line, the block of each active record in the iteration
    order of the registry, each block beginning with the header of its
    record.  After the creations of A, B and C, in this order and under
    distinct ids, the registry iterates A, B, C; with the three of them
    active and renderable the report is the line for N = 3, then the
    block of A, then that of B, then that of C. *)
Theorem report_follows_insertion_order
    f objs (a b c : Z) (ta tb tc : string) (tra trb trc : Z) (ra rb rc : N)
    (sa sb sc : list CallSite) :
  a ≠ b → a ≠ c → b ≠ c →
  ta ∉ IGNORED_TYPES → tb ∉ IGNORED_TYPES → tc ∉ IGNORED_TYPES →
  let A := {| type := ta; resourceRef := WeakRef_new ra;
              stacks := drop 1 (prepareStackTrace sa) |} in
  let B := {| type := tb; resourceRef := WeakRef_new rb;
              stacks := drop 1 (prepareStackTrace sb) |} in
  let C := {| type := tc; resourceRef := WeakRef_new rc;
              stacks := drop 1 (prepareStackTrace sc) |} in
  (∀ w, ∃ out rest,
      whyIsNodeRunning host w
      = (out,
         with_logged
           (logged w
            ++ ("There are " +:+ pretty (length (activeAsyncResources w))
                +:+ " handle(s) keeping the process running.") :: rest)
           (with_hook_enabled false w))
      ∧ activeAsyncResources w
        = filter (λ r, isActive (objects w) r) (Map_values (asyncResources w))
      ∧ (Forall (renderable host) (activeAsyncResources w) →
         out = Ret tt
         ∧ rest = concat (block host <$> activeAsyncResources w)))
  ∧ (∀ r, renderable host r →
          ∃ body, block host r = "" :: ("# " +:+ type r) :: body)
  ∧ ∃ w,
      deliver [ NInit a ta tra ra (Ret (Some sa));
                NInit b tb trb rb (Ret (Some sb));
                NInit c tc trc rc (Ret (Some sc)) ] (loaded f objs)
      = (Ret tt, w)
      ∧ Map_values (asyncResources w) = [A; B; C]
      ∧ (isActive objs A = true → isActive objs B = true → isActive objs C = true →
         renderable host A → renderable host B → renderable host C →
         ∃ w', whyIsNodeRunning host w = (Ret tt, w')
               ∧ logged w'
                 = "There are 3 handle(s) keeping the process running."
                   :: block host A ++ block host B ++ block host C).
Proof.
  intros Hab Hac Hbc Hta Htb Htc A B C. split_and!.
  - intros w. destruct (whyIsNodeRunning_writes w) as (out & ls & Hrun & _ & Hall).
    exists out, ls. split_and!; [|done|done]. by rewrite (Hrun w eq_refl).
  - intros r Hren. eexists. by apply block_renderable.
  - eexists. rewrite deliver_three_creations by done. split_and!; [done..|].
    intros HA HB HC HrA HrB HrC.
    set (w := with_asyncResources _ _).
    assert (Hact : activeAsyncResources w = [A; B; C]).
    { unfold activeAsyncResources, w. simpl. fold A B C.
      rewrite !filter_cons, filter_nil.
      by rewrite !decide_True by (by apply Is_true_true). }
    destruct (whyIsNodeRunning_writes w) as (out & ls & Hrun & _ & Hall).
    destruct Hall as [-> ->].
    { rewrite Hact. by repeat (apply Forall_cons; split). }
    eexists. rewrite (Hrun w eq_refl). split; [done|].
    rewrite logged_with_logged, Hact. simpl. by rewrite app_nil_r.
Qed.

End Inspection.

Lemma renderable_Forall (host : Host) (r : AsyncResource) :
  Forall (λ s, fileName s ≠ FileUndefined) (stacks r) →
  Forall (λ s, ∃ loc, formatLocation host s = Ret loc) (retained r) →
  renderable host r.
Proof. rewrite !Forall_forall. by split. Qed.

Lemma demo_sites_renderable (ty : string) (resource : N) :
  renderable demo_host (created_record ty resource demo_sites).
Proof.
  apply renderable_Forall.
  - change (stacks (created_record ty resource demo_sites))
      with [ {| lineNumber := Some 2; fileName := FileString "/app/server.js" |};
             demo_pool_frame;
             {| lineNumber := Some 5; fileName := FileString "node:net" |};
             {| lineNumber := Some 3; fileName := FileNull |} ].
    repeat (apply Forall_cons; split; [simpl; discriminate|]). constructor.
  - change (retained (created_record ty resource demo_sites))
      with [ {| lineNumber := Some 2; fileName := FileString "/app/server.js" |};
             demo_pool_frame ].
    repeat (apply Forall_cons; split; [eexists; reflexivity|]). constructor.
Qed.

Lemma report_follows_insertion_order_witness :
  let w := (deliver [ NInit 1 "TCPWRAP" 0 100%N demo_ctx;
                      NInit 3 "Timeout" 1 101%N demo_ctx;
                      NInit 5 "Immediate" 1 100%N demo_ctx ]
              (loaded NoFormatter demo_objects)).2 in
  Map_values (asyncResources w)
  = [ created_record "TCPWRAP" 100%N demo_sites;
      created_record "Timeout" 101%N demo_sites;
      created_record "Immediate" 100%N demo_sites ]
  ∧ logged (whyIsNodeRunning demo_host w).2
    = "There are 3 handle(s) keeping the process running."
      :: block demo_host (created_record "TCPWRAP" 100%N demo_sites)
      ++ block demo_host (created_record "Timeout" 101%N demo_sites)
      ++ block demo_host (created_record "Immediate" 100%N demo_sites).
Proof.
  assert (Hig : ∀ t, t ∈ ["TCPWRAP"; "Timeout"; "Immediate"] → t ∉ IGNORED_TYPES).
  { intros t Ht. unfold IGNORED_TYPES. set_solver. }
  destruct (report_follows_insertion_order demo_host NoFormatter demo_objects
              1 3 5 "TCPWRAP" "Timeout" "Immediate" 0 1 1 100%N 101%N 100%N
              demo_sites demo_sites demo_sites)
    as (_ & _ & w & Hrun & Hvalues & Hreport);
    [lia | lia | lia | apply Hig; set_solver.. |].
  unfold demo_ctx. rewrite Hrun. simpl snd. split; [exact Hvalues|].
  destruct Hreport as (w' & Hwhy & Hlog);
    [reflexivity | reflexivity | reflexivity | apply demo_sites_renderable.. |].
  by rewrite Hwhy.
Defined.

(** C5 as stated fails when the location of a frame cannot be
    formatted: [printStacks] calls [formatLocation] outside its [try],
    so with a first active record whose retained frame has a file URL
    that [fileURLToPath] refuses, the inspection writes the summary
    line for two records and the header of the first, then raises; no
    block is written for the second active record. *)
Lemma report_stops_when_location_raises :
  activeAsyncResources demo_world_remote
  = [demo_remote; created_record "Timeout" 101%N demo_sites]
  ∧ ∃ e w',
      whyIsNodeRunning demo_host demo_world_remote = (Throw e, w')
      ∧ logged w'
        = [ "There are 2 handle(s) keeping the process running.";
            ""; "# TCPWRAP" ]
      ∧ "# Timeout" ∉ logged w'.
Proof.
  split; [reflexivity|]. eexists _, _. split; [reflexivity|].
  split; [reflexivity|]. simpl.
  apply (bool_decide_unpack _). vm_compute. exact I.
Qed.

(** ** The demo process, end to end *)

Example demo_world_after_history :
  deliver demo_history (loaded NoFormatter demo_objects)
  = (Ret tt,
     with_asyncResources [(1, demo_tcp); (3, demo_timeout); (5, demo_immediate)]
       (loaded NoFormatter demo_objects)).
Proof. reflexivity. Qed.

Example demo_tcp_stacks :
  stacks demo_tcp
  = [ {| lineNumber := Some 2; fileName := FileString "/app/server.js" |};
      demo_pool_frame;
      {| lineNumber := Some 5; fileName := FileString "node:net" |};
      {| lineNumber := Some 3; fileName := FileNull |} ].
Proof. reflexivity. Qed.

Example demo_report :
  logged (whyIsNodeRunning demo_host demo_world).2
  = [ "There are 2 handle(s) keeping the process running.";
      "";
      "# TCPWRAP";
      "server.js:2                 - net.createServer().listen(0)";
      "lib/connection/pool.js:1234";
      "";
      "# Timeout";
      "(unknown stack trace)" ].
Proof. reflexivity. Qed.

Example demo_hook_disabled_after_report :
  hook_enabled (whyIsNodeRunning demo_host demo_world).2 = false
  ∧ notify (NInit 9 "Timeout" 1 100%N demo_ctx)
      (whyIsNodeRunning demo_host demo_world).2
    = (Ret tt, (whyIsNodeRunning demo_host demo_world).2).
Proof. split; reflexivity. Qed.

Example demo_init_without_stack :
  init 7 "Timeout" 0 100%N (Ret None) (loaded (ForeignFormatter "userland") demo_objects)
  = (Throw (TypeError "Cannot read properties of undefined (reading 'slice')"),
     loaded (ForeignFormatter "userland") demo_objects).
Proof. reflexivity. Qed.

(** ** Further properties of the registry and its callbacks *)
Section MapMoreFacts.

Context {V : Type}.
Implicit Types (m : list (Z * V)) (k i : Z) (v : V).

Lemma Map_set_present_keys k v m :
  k ∈ Map_keys m → Map_keys (Map_set k v m) = Map_keys m.
Proof.
  unfold Map_keys. induction m as [|[k' v'] m IH]; simpl; intros Hk.
  - by apply elem_of_nil in Hk.
  - case_decide; simpl; [by subst|]. f_equal. apply IH. set_solver.
Qed.

Lemma Map_set_elem k v m : (k, v) ∈ Map_set k v m.
Proof.
  induction m as [|[k' v'] m IH]; simpl; [apply list_elem_of_here|].
  case_decide; [apply list_elem_of_here|by apply list_elem_of_further].
Qed.

Lemma Map_set_other k v m k' v' :
  k' ≠ k → (k', v') ∈ Map_set k v m ↔ (k', v') ∈ m.
Proof.
  intros Hne. induction m as [|[k0 v0] m IH]; simpl.
  - rewrite list_elem_of_singleton. split; [by intros [= ? _]|by intros ?%elem_of_nil].
  - case_decide; rewrite !elem_of_cons.
    + subst. split; (intros [[= ? ?]|?]; [done|by right]).
    + by rewrite IH.
Qed.

Lemma Map_set_length k v m :
  (length (Map_set k v m) ≤ S (length m))%nat.
Proof.
  induction m as [|[k' v'] m IH]; simpl; [lia|]. case_decide; simpl; lia.
Qed.

Lemma Map_delete_length k m : (length (Map_delete k m) ≤ length m)%nat.
Proof. apply length_filter. Qed.

Lemma Map_delete_set_fresh k v m :
  k ∉ Map_keys m → Map_delete k (Map_set k v m) = m.
Proof.
  intros Hk. rewrite Map_set_fresh by done. unfold Map_delete.
  rewrite filter_app, filter_cons, decide_False by (simpl; tauto).
  rewrite filter_nil, app_nil_r. by apply Map_delete_absent.
Qed.

Lemma Map_delete_elem k m k' v' :
  (k', v') ∈ Map_delete k m ↔ k' ≠ k ∧ (k', v') ∈ m.
Proof. unfold Map_delete. by rewrite list_elem_of_filter. Qed.

End MapMoreFacts.

Lemma with_asyncResources_same (w : World) :
  with_asyncResources (asyncResources w) w = w.
Proof. by destruct w. Qed.

Lemma deliver_cons (n : Notification) (ns : list Notification) (w : World) :
  deliver (n :: ns) w
  = match notify n w with
    | (Ret _, w') => deliver ns w'
    | (Throw e, w') => (Throw e, w')
    end.
Proof. reflexivity. Qed.

Lemma deliver_disabled (ns : list Notification) (w : World) :
  hook_enabled w = false → deliver ns w = (Ret tt, w).
Proof.
  intros Hoff. induction ns as [|n ns IH]; [done|].
  rewrite deliver_cons. unfold notify at 1. by rewrite Hoff.
Qed.

(** X1.  Once an inspection has run, the hook is disabled: whatever
    notifications follow, none of them raises and the state, the
    registry included, stays as the inspection left it. *)
Theorem inspection_freezes_registry (host : Host) (w : World) (ns : list Notification) :
  hook_enabled (whyIsNodeRunning host w).2 = false
  ∧ deliver ns (whyIsNodeRunning host w).2 = (Ret tt, (whyIsNodeRunning host w).2).
Proof.
  assert (Hoff : hook_enabled (whyIsNodeRunning host w).2 = false).
  { destruct (whyIsNodeRunning_writes host w) as (out & ls & Hrun & _).
    by rewrite (Hrun w eq_refl). }
  split; [done|]. by apply deliver_disabled.
Qed.

(** X2.  An inspection only writes to the logger and disables the hook:
    registry, formatter slot and objects are as before, so a second
    inspection over the same objects writes the same report once more. *)
Theorem inspection_is_repeatable (host : Host) (w : World) :
  let w1 := (whyIsNodeRunning host w).2 in
  let w2 := (whyIsNodeRunning host w1).2 in
  asyncResources w1 = asyncResources w
  ∧ Error_prepareStackTrace w1 = Error_prepareStackTrace w
  ∧ objects w1 = objects w
  ∧ ∃ report, logged w1 = logged w ++ report
              ∧ logged w2 = (logged w ++ report) ++ report.
Proof.
  intros w1 w2. unfold w2, w1.
  destruct (whyIsNodeRunning_writes host w) as (out & ls & Hrun & _).
  rewrite (Hrun w eq_refl). rewrite Hrun by done. simpl.
  split_and!; [done..|]. eexists. split; reflexivity.
Qed.

(** X3.  When the host attaches a stack, [captureStackTraces] returns
    one frame per call site, in the order of the call sites and with
    their line number and file name, and leaves the whole state, the
    formatter slot included, as it found it. *)
Theorem captureStackTraces_frames_follow_call_sites
    (sites : list CallSite) (w : World) :
  ∃ frames,
    captureStackTraces (Ret (Some sites)) w = (Ret (Some frames), w)
    ∧ length frames = length sites
    ∧ ∀ (k : nat) site,
        sites !! k = Some site →
        frames !! k = Some {| lineNumber := getLineNumber site;
                              fileName := getFileName site |}.
Proof.
  exists (prepareStackTrace sites). split_and!.
  - rewrite captureStackTraces_returns. simpl. by rewrite with_formatter_same.
  - unfold prepareStackTrace. by rewrite length_fmap.
  - intros k site Hk. unfold prepareStackTrace. by rewrite list_lookup_fmap, Hk.
Qed.

(** X4.  A tracked creation under an id that is not in the registry
    appends one entry after all the existing ones; the entry carries the
    type, a weak reference to the resource, and the frames of the call
    sites without the first one, which is the frame of [init] itself. *)
Theorem init_appends_fresh_id
    (asyncId : Z) (ty : string) (trig : Z) (resource : N)
    (sites : list CallSite) (w : World) :
  ty ∉ IGNORED_TYPES →
  asyncId ∉ Map_keys (asyncResources w) →
  ∃ record,
    init asyncId ty trig resource (Ret (Some sites)) w
    = (Ret tt, with_asyncResources (asyncResources w ++ [(asyncId, record)]) w)
    ∧ type record = ty
    ∧ resourceRef record = WeakRef_new resource
    ∧ length (stacks record) = (length sites - 1)%nat
    ∧ ∀ (k : nat) site,
        sites !! S k = Some site →
        stacks record !! k = Some {| lineNumber := getLineNumber site;
                                     fileName := getFileName site |}.
Proof.
  intros Hty Hfresh. eexists. rewrite init_tracked by done.
  rewrite Map_set_fresh by done. split_and!; [done..| |]; simpl.
  - unfold prepareStackTrace. by rewrite length_drop, length_fmap.
  - intros k site Hk. unfold prepareStackTrace.
    rewrite lookup_drop, list_lookup_fmap. simpl. by rewrite Hk.
Qed.

Lemma init_appends_fresh_id_witness :
  ("Timeout" ∉ IGNORED_TYPES)
  ∧ (9 ∉ Map_keys (asyncResources demo_world))
  ∧ ∃ record,
      init 9 "Timeout" 1 100%N (Ret (Some demo_sites)) demo_world
      = (Ret tt,
         with_asyncResources (asyncResources demo_world ++ [(9, record)]) demo_world)
      ∧ type record = "Timeout"
      ∧ resourceRef record = WeakRef_new 100%N
      ∧ length (stacks record) = (length demo_sites - 1)%nat
      ∧ ∀ (k : nat) site,
          demo_sites !! S k = Some site →
          stacks record !! k = Some {| lineNumber := getLineNumber site;
                                       fileName := getFileName site |}.
Proof.
  assert (Hty : "Timeout" ∉ IGNORED_TYPES)
    by (apply (bool_decide_unpack _); vm_compute; exact I).
  assert (Hfresh : 9 ∉ Map_keys (asyncResources demo_world))
    by (apply (bool_decide_unpack _); vm_compute; exact I).
  split; [exact Hty|]. split; [exact Hfresh|].
  apply (init_appends_fresh_id 9 "Timeout" 1 100%N demo_sites demo_world Hty Hfresh).
Defined.

(** X5.  A tracked creation under an id that is already in the registry
    replaces the record of that id where it stands: the keys and their
    order are unchanged and the entries of the other ids are untouched. *)
Theorem init_replaces_existing_id
    (asyncId : Z) (ty : string) (trig : Z) (resource : N)
    (sites : list CallSite) (w : World) :
  ty ∉ IGNORED_TYPES →
  asyncId ∈ Map_keys (asyncResources w) →
  ∃ w',
    init asyncId ty trig resource (Ret (Some sites)) w = (Ret tt, w')
    ∧ Map_keys (asyncResources w') = Map_keys (asyncResources w)
    ∧ (asyncId, {| type := ty; resourceRef := WeakRef_new resource;
                   stacks := drop 1 (prepareStackTrace sites) |})
      ∈ asyncResources w'
    ∧ ∀ k r, k ≠ asyncId →
             ((k, r) ∈ asyncResources w' ↔ (k, r) ∈ asyncResources w).
Proof.
  intros Hty Hin. eexists. rewrite init_tracked by done. simpl. split_and!.
  - done.
  - by apply Map_set_present_keys.
  - apply Map_set_elem.
  - intros k r Hne. by apply Map_set_other.
Qed.

Lemma init_replaces_existing_id_witness :
  ("Timeout" ∉ IGNORED_TYPES)
  ∧ 3 ∈ Map_keys (asyncResources demo_world)
  ∧ ∃ w',
      init 3 "Timeout" 1 100%N (Ret (Some demo_sites)) demo_world = (Ret tt, w')
      ∧ Map_keys (asyncResources w') = Map_keys (asyncResources demo_world)
      ∧ (3, {| type := "Timeout"; resourceRef := WeakRef_new 100%N;
               stacks := drop 1 (prepareStackTrace demo_sites) |})
        ∈ asyncResources w'
      ∧ ∀ k r, k ≠ 3 →
               ((k, r) ∈ asyncResources w' ↔ (k, r) ∈ asyncResources demo_world).
Proof.
  assert (Hty : "Timeout" ∉ IGNORED_TYPES)
    by (apply (bool_decide_unpack _); vm_compute; exact I).
  assert (Hin : 3 ∈ Map_keys (asyncResources demo_world))
    by (apply (bool_decide_unpack _); vm_compute; exact I).
  split; [exact Hty|]. split; [exact Hin|].
  apply (init_replaces_existing_id 3 "Timeout" 1 100%N demo_sites demo_world Hty Hin).
Defined.

(** X6.  Creating a tracked resource under an id that is not in the
    registry and then destroying that id gives back the state from
    before the creation, registry order included. *)
Theorem create_then_destroy_restores
    (asyncId : Z) (ty : string) (trig : Z) (resource : N)
    (sites : list CallSite) (w : World) :
  ty ∉ IGNORED_TYPES →
  asyncId ∉ Map_keys (asyncResources w) →
  (init asyncId ty trig resource (Ret (Some sites));; destroy asyncId) w
  = (Ret tt, w).
Proof.
  intros Hty Hfresh. autounfold with run. rewrite init_tracked by done.
  unfold destroy. run. rewrite Map_delete_set_fresh by done.
  by destruct w.
Qed.

Lemma create_then_destroy_restores_witness :
  ("Timeout" ∉ IGNORED_TYPES)
  ∧ (9 ∉ Map_keys (asyncResources demo_world))
  ∧ (init 9 "Timeout" 1 100%N (Ret (Some demo_sites));; destroy 9) demo_world
    = (Ret tt, demo_world).
Proof.
  assert (Hty : "Timeout" ∉ IGNORED_TYPES)
    by (apply (bool_decide_unpack _); vm_compute; exact I).
  assert (Hfresh : 9 ∉ Map_keys (asyncResources demo_world))
    by (apply (bool_decide_unpack _); vm_compute; exact I).
  split; [exact Hty|]. split; [exact Hfresh|].
  apply (create_then_destroy_restores 9 "Timeout" 1 100%N demo_sites demo_world
           Hty Hfresh).
Defined.

(** X7.  [destroy] never raises; it removes the entries of the given id
    and nothing else, keeps the remaining entries in their order, does
    not touch the rest of the state, and a second [destroy] of the same
    id changes nothing. *)
Theorem destroy_removes_one_id (asyncId : Z) (w : World) :
  ∃ w',
    destroy asyncId w = (Ret tt, w')
    ∧ (asyncId ∉ Map_keys (asyncResources w'))
    ∧ asyncResources w' `sublist_of` asyncResources w
    ∧ (∀ k r, (k, r) ∈ asyncResources w'
              ↔ k ≠ asyncId ∧ (k, r) ∈ asyncResources w)
    ∧ w' = with_asyncResources (asyncResources w') w
    ∧ destroy asyncId w' = (Ret tt, w').
Proof.
  eexists. split; [reflexivity|]. simpl.
  assert (Hgone : asyncId ∉ Map_keys (Map_delete asyncId (asyncResources w))).
  { rewrite Map_keys_delete. tauto. }
  split_and!.
  - exact Hgone.
  - apply sublist_filter.
  - intros k r. apply Map_delete_elem.
  - done.
  - by apply destroy_absent.
Qed.

Lemma deliver_keys_NoDup (ns : list Notification) (w : World) :
  NoDup (Map_keys (asyncResources w)) →
  NoDup (Map_keys (asyncResources (deliver ns w).2)).
Proof.
  revert w. induction ns as [|n ns IH]; intros w Hnd; [done|].
  rewrite deliver_cons. pose proof (notify_keys_NoDup n w Hnd) as Hstep.
  destruct (notify n w) as [[[]|e] w1]; simpl in Hstep; [by apply IH|done].
Qed.

(** X8.  Whatever the history of notifications, with creations that
    reuse ids and captures that fail included, the ids in the registry
    are pairwise distinct: no resource is listed twice. *)
Theorem registry_keys_distinct f objs (ns : list Notification) :
  NoDup (Map_keys (asyncResources (deliver ns (loaded f objs)).2)).
Proof. apply deliver_keys_NoDup. simpl. apply NoDup_nil_2. Qed.

Lemma tracked_creations_cons (n : Notification) (ns : list Notification) :
  tracked_creations (n :: ns)
  = ((if is_tracked_creation n then 1 else 0) + tracked_creations ns)%nat.
Proof.
  unfold tracked_creations. rewrite filter_cons.
  destruct (is_tracked_creation n); simpl; done.
Qed.

Lemma notify_length (n : Notification) (w : World) :
  (length (asyncResources (notify n w).2)
   ≤ length (asyncResources w) + (if is_tracked_creation n then 1 else 0))%nat.
Proof.
  unfold notify. destruct (hook_enabled w); [|simpl; lia].
  destruct n as [i type trig resource ctx|i]; simpl.
  - destruct (decide (type ∈ IGNORED_TYPES)) as [Hig|Hig].
    + rewrite init_ignored by done. simpl. lia.
    + destruct (includes IGNORED_TYPES type) eqn:E; [by apply includes_spec in E|].
      simpl. destruct ctx as [[sites|]|e].
      * rewrite init_tracked by done. simpl.
        pose proof (Map_set_length i
          {| type := type; resourceRef := WeakRef_new resource;
             stacks := drop 1 (prepareStackTrace sites) |} (asyncResources w)).
        lia.
      * destruct (init_no_stack i type trig resource w Hig) as [e ->]. simpl. lia.
      * rewrite init_capture_raises by done. simpl. lia.
  - pose proof (Map_delete_length i (asyncResources w)). lia.
Qed.

Lemma deliver_length (ns : list Notification) (w : World) :
  (length (asyncResources (deliver ns w).2)
   ≤ length (asyncResources w) + tracked_creations ns)%nat.
Proof.
  revert w. induction ns as [|n ns IH]; intros w; [simpl; lia|].
  rewrite deliver_cons, tracked_creations_cons.
  pose proof (notify_length n w) as Hstep.
  destruct (notify n w) as [[[]|e] w1]; simpl in Hstep.
  - specialize (IH w1). lia.
  - simpl. lia.
Qed.

(** X9.  The registry never holds more entries than the history has
    creations with a type that is not ignored, whatever the order of
    the notifications and whether or not the captures succeed. *)
Theorem registry_size_bounded f objs (ns : list Notification) :
  (length (asyncResources (deliver ns (loaded f objs)).2)
   ≤ tracked_creations ns)%nat.
Proof. pose proof (deliver_length ns (loaded f objs)) as H. simpl in H. exact H. Qed.

(** ** Further properties of the renderer *)
Section RendererMoreProperties.

Variable host : Host.

Lemma sourceLine_readable (s : StackFrame) (path contents line : string) :
  normalizeFilePath host (fileName s) = Ret path →
  readFileSync host path = Ret contents →
  index (split_lines contents) (default 0 (lineNumber s) - 1) = Some line →
  excerpt host s = " - " +:+ trim line.
Proof.
  intros Hpath Hread Hline. unfold excerpt, sourceLine. rewrite Hpath. run.
  by rewrite Hread, Hline.
Qed.


(** X11.  When rendering reaches the frames of a record and the file of
    one of them is read and has a line at the frame's line number, the
    line of that frame is its path, a colon and its line number, the
    padding, the separator and the text of that source line without the
    white space around it. *)
Theorem readable_source_line_is_shown
    (r : AsyncResource) (w : World) (kept : list StackFrame) (maxLength : Z)
    (k : nat) (s : StackFrame) (path contents line : string) :
  Array_filter keepFrame (stacks r) = Ret kept →
  maxLength_of host kept = Ret maxLength →
  kept !! k = Some s →
  normalizeFilePath host (fileName s) = Ret path →
  readFileSync host path = Ret contents →
  index (split_lines contents) (default 0 (lineNumber s) - 1) = Some line →
  ∃ body filePath loc padding,
    printStacks host r w
    = (Ret tt, with_logged (logged w ++ "" :: ("# " +:+ type r) :: body) w)
    ∧ formatFilePath host (fileName s) = Ret filePath
    ∧ loc = filePath +:+ ":" +:+ match lineNumber s with
                                 | Some n => pretty n
                                 | None => "null"
                                 end
    ∧ JS.repeat " " (maxLength - Z.of_nat (String.length loc)) = Ret padding
    ∧ body !! k = Some (loc +:+ padding +:+ " - " +:+ trim line).
Proof.
  intros Hf Hm Hk Hpath Hread Hline.
  assert (Hne : kept ≠ []) by (intros ->; by rewrite lookup_nil in Hk).
  destruct (maxLength_of_returns host kept maxLength Hm) as [Hfmt ->].
  assert (Hs : s ∈ kept) by (by eapply list_elem_of_lookup_2).
  rewrite Forall_forall in Hfmt. destruct (Hfmt s Hs) as [loc Hloc].
  destruct (formatLocation_returns host s loc Hloc) as (filePath & HfilePath & Hloc_eq).
  pose proof (location_le_widest host kept s Hs) as Hle.
  rewrite (formatLocation_location host s loc Hloc) in Hle.
  exists (frame_line host (widest host kept) <$> kept), filePath, loc,
    (spaces (widest host kept - String.length loc)).
  split_and!; [|done|done| |].
  - by apply (printStacks_frames host r w kept (Z.of_nat (widest host kept))).
  - rewrite repeat_space by lia. do 2 f_equal. lia.
  - rewrite list_lookup_fmap, Hk. simpl. unfold frame_line.
    rewrite (formatLocation_location host s loc Hloc).
    by rewrite (sourceLine_readable s path contents line Hpath Hread Hline).
Qed.

(** X12.  The excerpt of a frame exists exactly when its file is read,
    its line number is a number between 1 and the number of lines of
    the file, and then it is that line, trimmed; a [null], zero or
    negative line number, or one past the last line, gives no excerpt. *)
Theorem sourceLine_returns_iff (s : StackFrame) (path text : string) :
  normalizeFilePath host (fileName s) = Ret path →
  sourceLine host s = Ret text
  ↔ ∃ contents n line,
      readFileSync host path = Ret contents
      ∧ lineNumber s = Some n
      ∧ 1 ≤ n ≤ Z.of_nat (length (split_lines contents))
      ∧ split_lines contents !! Z.to_nat (n - 1) = Some line
      ∧ text = trim line.
Proof.
  intros Hpath. unfold sourceLine. rewrite Hpath. run. split.
  - destruct (readFileSync host path) as [contents|e]; [|done].
    unfold index. destruct (lineNumber s) as [n|]; simpl; [|done].
    destruct (n - 1 <? 0) eqn:Hneg; [done|]. apply Z.ltb_ge in Hneg.
    destruct (split_lines contents !! Z.to_nat (n - 1)) as [line|] eqn:Hline; [|done].
    intros [= <-]. exists contents, n, line. split_and!; [done|done|lia| |done|done].
    apply lookup_lt_Some in Hline. lia.
  - intros (contents & n & line & -> & -> & [Hlo Hhi] & Hline & ->).
    unfold index. simpl. rewrite (proj2 (Z.ltb_ge (n - 1) 0)) by lia.
    by rewrite Hline.
Qed.

Lemma formatLocation_raises_iff (s : StackFrame) :
  (∃ e, formatLocation host s = Throw e)
  ↔ fileName s = FileNull
    ∨ fileName s = FileUndefined
    ∨ ∃ p e, fileName s = FileString p
             ∧ startsWith p "file://" = true
             ∧ fileURLToPath host p = Throw e.
Proof.
  unfold formatLocation, formatFilePath, normalizeFilePath.
  destruct (fileName s) as [| |p]; run.
  - split; [by left|eauto].
  - split; [by right; left|eauto].
  - destruct (startsWith p "file://") eqn:Hurl.
    + destruct (fileURLToPath host p) as [path|e] eqn:Hconv; run.
      * split; [by intros [? [=]]|].
        intros [?|[?|(p' & e & [= <-] & _ & He)]]; [done|done|congruence].
      * split; [|eauto]. intros _. right. right. by exists p, e.
    + split; [by intros [? [=]]|].
      intros [?|[?|(p' & e & [= <-] & Hp & _)]]; [done|done|congruence].
Qed.

(** X16.  Computing the common width raises exactly when the location
    of some frame of the list cannot be formatted, which is the case
    exactly for a file name that is [null], [undefined], or a [file://]
    name that [fileURLToPath] refuses; when it returns, its value is the
    length of the longest location of the list. *)
Theorem maxLength_of_raises_iff (frames : list StackFrame) :
  ((∃ e, maxLength_of host frames = Throw e)
   ↔ ∃ s, s ∈ frames
          ∧ (fileName s = FileNull
             ∨ fileName s = FileUndefined
             ∨ ∃ p e, fileName s = FileString p
                      ∧ startsWith p "file://" = true
                      ∧ fileURLToPath host p = Throw e))
  ∧ (∀ m, maxLength_of host frames = Ret m →
          ∃ locs,
            Forall2 (λ s loc, formatLocation host s = Ret loc) frames locs
            ∧ m = Z.of_nat (max_list (String.length <$> locs))).
Proof.
  split.
  - split.
    + intros [e He]. destruct (maxLength_of_raises host frames e He) as (s & Hs & Hraise).
      exists s. split; [done|]. by apply formatLocation_raises_iff.
    + intros (s & Hs & Hname). apply formatLocation_raises_iff in Hname as [e He].
      destruct (maxLength_of host frames) as [m|e'] eqn:Hm; [|eauto].
      apply maxLength_of_returns in Hm as [Hfmt _]. rewrite Forall_forall in Hfmt.
      destruct (Hfmt s Hs) as [loc Hloc]. congruence.
  - intros m Hm. apply maxLength_of_returns in Hm as [Hfmt ->].
    exists (location host <$> frames). split.
    + apply Forall2_fmap_r, Forall_Forall2_diag.
      eapply Forall_impl; [exact Hfmt|]. intros s [loc Hloc]. simpl.
      by rewrite (formatLocation_location host s loc Hloc).
    + unfold widest. by rewrite <- list_fmap_compose.
Qed.

(** X15.  The path shown for a file name is the normalized path or that
    path relative to the working directory, and it starts with [..]
    only if it is the normalized path itself; a file name that is not a
    [file://] URL is normalized to itself. *)
Theorem formatFilePath_never_climbs (p shown : string) :
  formatFilePath host (FileString p) = Ret shown →
  ∃ absolutePath,
    normalizeFilePath host (FileString p) = Ret absolutePath
    ∧ (startsWith p "file://" = false → absolutePath = p)
    ∧ (shown = absolutePath ∨ shown = relative host (cwd host) absolutePath)
    ∧ (startsWith shown ".." = true → shown = absolutePath).
Proof.
  unfold formatFilePath.
  destruct (normalizeFilePath host (FileString p)) as [absolutePath|e] eqn:Hnorm;
    run; [|done].
  intros [= <-]. exists absolutePath. split; [done|]. split_and!.
  - intros Hp. unfold normalizeFilePath in Hnorm. rewrite Hp in Hnorm. congruence.
  - destruct (startsWith (relative host _ _) ".."); [by left|by right].
  - destruct (startsWith (relative host _ _) "..") eqn:E; [done|].
    intros Hs. congruence.
Qed.

End RendererMoreProperties.


Lemma readable_source_line_is_shown_witness :
  Array_filter keepFrame (stacks demo_tcp)
  = Ret [ {| lineNumber := Some 2; fileName := FileString "/app/server.js" |};
          demo_pool_frame ]
  ∧ maxLength_of demo_host
      [ {| lineNumber := Some 2; fileName := FileString "/app/server.js" |};
        demo_pool_frame ] = Ret 27
  ∧ ∃ body,
      printStacks demo_host demo_tcp demo_world
      = (Ret tt,
         with_logged (logged demo_world ++ "" :: ("# " +:+ type demo_tcp) :: body)
           demo_world)
      ∧ body !! 0%nat
        = Some "server.js:2                 - net.createServer().listen(0)".
Proof.
  split; [reflexivity|]. split; [reflexivity|].
  destruct (readable_source_line_is_shown demo_host demo_tcp demo_world
              [ {| lineNumber := Some 2; fileName := FileString "/app/server.js" |};
                demo_pool_frame ]
              27 0
              {| lineNumber := Some 2; fileName := FileString "/app/server.js" |}
              "/app/server.js"
              ("const net = require('net')" +:+ String LF
               "  net.createServer().listen(0)  " +:+ String CR (String LF "// end"))
              "  net.createServer().listen(0)  ")
    as (body & filePath & loc & padding & Hrun & Hpath & Hloc & Hpad & Hline);
    [reflexivity..|].
  exists body. split; [exact Hrun|]. rewrite Hline.
  vm_compute in Hpath. injection Hpath as <-. subst loc.
  vm_compute in Hpad. injection Hpad as <-. reflexivity.
Defined.

Lemma sourceLine_returns_iff_witness :
  normalizeFilePath demo_host (FileString "/app/server.js") = Ret "/app/server.js"
  ∧ sourceLine demo_host
      {| lineNumber := Some 3; fileName := FileString "/app/server.js" |}
    = Ret "// end"
  ∧ ∃ e, sourceLine demo_host
           {| lineNumber := Some 4; fileName := FileString "/app/server.js" |}
         = Throw e.
Proof.
  split; [reflexivity|]. split.
  - apply (sourceLine_returns_iff demo_host
             {| lineNumber := Some 3; fileName := FileString "/app/server.js" |}
             "/app/server.js" "// end"); [reflexivity|].
    eexists _, 3, "// end". split_and!; [reflexivity|reflexivity|lia| |reflexivity..].
    by vm_compute.
  - destruct (sourceLine demo_host
                {| lineNumber := Some 4; fileName := FileString "/app/server.js" |})
      as [text|e] eqn:E; [|by exists e].
    apply (sourceLine_returns_iff demo_host _ "/app/server.js" text) in E;
      [|reflexivity].
    destruct E as (contents & n & line & Hread & [= <-] & [_ Hhi] & _).
    vm_compute in Hread. injection Hread as <-. vm_compute in Hhi. by destruct Hhi.
Defined.

Lemma formatFilePath_never_climbs_witness :
  formatFilePath demo_host (FileString "file:///opt/why-is-node-running/index.js")
  = Ret "/opt/why-is-node-running/index.js"
  ∧ ∃ absolutePath,
      normalizeFilePath demo_host
        (FileString "file:///opt/why-is-node-running/index.js")
      = Ret absolutePath
      ∧ "/opt/why-is-node-running/index.js" = absolutePath.
Proof.
  split; [reflexivity|].
  destruct (formatFilePath_never_climbs demo_host
              "file:///opt/why-is-node-running/index.js"
              "/opt/why-is-node-running/index.js" eq_refl)
    as (absolutePath & Hnorm & _ & Hshown & _).
  exists absolutePath. split; [exact Hnorm|].
  vm_compute in Hnorm. by injection Hnorm as <-.
Defined.

(** ** Cutting a file into lines and trimming a line *)

Lemma list_ascii_of_append (s1 s2 : string) :
  String.list_ascii_of_string (s1 +:+ s2)
  = String.list_ascii_of_string s1 ++ String.list_ascii_of_string s2.
Proof.
  induction s1 as [|c s1 IH]; [done|]. rewrite append_cons. simpl. by rewrite IH.
Qed.

Lemma string_of_snoc_append (l : list ascii) (c : ascii) (rest : string) :
  String.string_of_list_ascii (l ++ [c]) +:+ rest
  = String.string_of_list_ascii l +:+ String c rest.
Proof.
  induction l as [|a l IH]; [done|]. simpl. by rewrite !append_cons, IH.
Qed.

Lemma concat_cons_more (sep x : string) (xs : list string) :
  xs ≠ [] → String.concat sep (x :: xs) = x +:+ sep +:+ String.concat sep xs.
Proof. by destruct xs. Qed.

Lemma split_lines_from_nonempty (cur : list ascii) (s : string) :
  split_lines_from cur s ≠ [].
Proof.
  revert cur. induction s as [|c rest IH]; intros cur; simpl; [done|].
  destruct (Ascii.eqb c LF); [done|].
  destruct (Ascii.eqb c CR); [|apply IH].
  destruct rest as [|c' rest']; [apply IH|].
  destruct (Ascii.eqb c' LF); [done|apply IH].
Qed.

Lemma not_elem_of_rev {A} (x : A) (l : list A) : x ∉ l → x ∉ rev l.
Proof. rewrite !list_elem_of_In. intros Hx Hin. by apply in_rev in Hin. Qed.

Lemma split_lines_from_no_LF (n : nat) :
  ∀ (s : string) (cur : list ascii),
    (String.length s ≤ n)%nat →
    LF ∉ cur →
    ∀ piece, piece ∈ split_lines_from cur s →
             LF ∉ String.list_ascii_of_string piece.
Proof.
  induction n as [|n IH]; intros s cur Hlen Hcur piece Hpiece.
  - destruct s; [|simpl in Hlen; lia]. simpl in Hpiece.
    apply list_elem_of_singleton in Hpiece as ->.
    rewrite String.list_ascii_of_string_of_list_ascii. by apply not_elem_of_rev.
  - destruct s as [|c rest].
    { simpl in Hpiece. apply list_elem_of_singleton in Hpiece as ->.
      rewrite String.list_ascii_of_string_of_list_ascii. by apply not_elem_of_rev. }
    simpl in Hlen. simpl in Hpiece.
    assert (Hflush : LF ∉ String.list_ascii_of_string
                            (String.string_of_list_ascii (rev cur))).
    { rewrite String.list_ascii_of_string_of_list_ascii. by apply not_elem_of_rev. }
    destruct (Ascii.eqb c LF) eqn:HcLF.
    { apply elem_of_cons in Hpiece as [->|Hpiece]; [done|].
      apply (IH rest []); [lia|apply not_elem_of_nil|done]. }
    apply Ascii.eqb_neq in HcLF.
    assert (Hcur' : LF ∉ c :: cur).
    { intros [?|?]%elem_of_cons; [congruence|done]. }
    destruct (Ascii.eqb c CR).
    + destruct rest as [|c' rest'].
      * apply (IH "" (c :: cur)); [simpl; lia|done|done].
      * destruct (Ascii.eqb c' LF).
        -- apply elem_of_cons in Hpiece as [->|Hpiece]; [done|].
           apply (IH rest' []); [simpl in Hlen; lia|apply not_elem_of_nil|done].
        -- apply (IH (String c' rest') (c :: cur)); [lia|done|done].
    + apply (IH rest (c :: cur)); [lia|done|done].
Qed.

Lemma concat_split_lines_from (cur : list ascii) (s : string) :
  CR ∉ String.list_ascii_of_string s →
  String.concat (String LF "") (split_lines_from cur s)
  = String.string_of_list_ascii (rev cur) +:+ s.
Proof.
  revert cur. induction s as [|c rest IH]; intros cur Hcr.
  - simpl. by rewrite append_empty_r.
  - simpl in Hcr. apply not_elem_of_cons in Hcr as [Hc Hrest]. simpl.
    destruct (Ascii.eqb c LF) eqn:HcLF.
    + apply Ascii.eqb_eq in HcLF as ->.
      rewrite concat_cons_more by apply split_lines_from_nonempty.
      by rewrite (IH [] Hrest).
    + destruct (Ascii.eqb c CR) eqn:HcCR; [apply Ascii.eqb_eq in HcCR; congruence|].
      rewrite (IH (c :: cur) Hrest). simpl. apply string_of_snoc_append.
Qed.

Lemma trim_start_head (l : list ascii) (c : ascii) (l' : list ascii) :
  trim_start l = c :: l' → is_white_space c = false.
Proof.
  induction l as [|a l IH]; simpl; [done|].
  destruct (is_white_space a) eqn:Ha; [done|]. by intros [= <- _].
Qed.

Lemma trim_start_suffix (l : list ascii) : ∃ pre, l = pre ++ trim_start l.
Proof.
  induction l as [|a l [pre IH]]; simpl; [by exists []|].
  destruct (is_white_space a); [|by exists []].
  exists (a :: pre). simpl. by rewrite <- IH.
Qed.

Lemma trim_start_fixed (l : list ascii) :
  (∀ c l', l = c :: l' → is_white_space c = false) → trim_start l = l.
Proof.
  destruct l as [|a l]; [done|]. intros Hhead. simpl.
  by rewrite (Hhead a l eq_refl).
Qed.

Lemma trimmed_head (l : list ascii) (c : ascii) (l' : list ascii) :
  rev (trim_start (rev (trim_start l))) = c :: l' → is_white_space c = false.
Proof.
  intros Hrev. destruct (trim_start_suffix (rev (trim_start l))) as [pre Hpre].
  apply (f_equal (@rev ascii)) in Hpre. rewrite rev_involutive, rev_app_distr, Hrev in Hpre.
  simpl in Hpre. by eapply trim_start_head.
Qed.

Lemma trimmed_last (l : list ascii) (l' : list ascii) (c : ascii) :
  rev (trim_start (rev (trim_start l))) = l' ++ [c] → is_white_space c = false.
Proof.
  intros Hrev. apply (f_equal (@rev ascii)) in Hrev.
  rewrite rev_involutive, rev_app_distr in Hrev. simpl in Hrev.
  by eapply trim_start_head.
Qed.

Lemma trimmed_fixed (l : list ascii) :
  let u := rev (trim_start (rev (trim_start l))) in
  rev (trim_start (rev (trim_start u))) = u.
Proof.
  intros u. rewrite (trim_start_fixed u).
  - unfold u. rewrite rev_involutive. rewrite trim_start_fixed; [done|].
    intros c l' Hc. by eapply trim_start_head.
  - intros c l' Hc. by eapply trimmed_head.
Qed.

Lemma trim_properties (line : string) :
  trim (trim line) = trim line
  ∧ (∀ c rest, trim line = String c rest → is_white_space c = false)
  ∧ (∀ pre c, trim line = pre +:+ String c "" → is_white_space c = false).
Proof.
  unfold trim. split_and!.
  - rewrite String.list_ascii_of_string_of_list_ascii. f_equal. apply trimmed_fixed.
  - intros c rest Heq. apply (f_equal String.list_ascii_of_string) in Heq.
    rewrite String.list_ascii_of_string_of_list_ascii in Heq. simpl in Heq.
    by eapply trimmed_head.
  - intros pre c Heq. apply (f_equal String.list_ascii_of_string) in Heq.
    rewrite String.list_ascii_of_string_of_list_ascii, list_ascii_of_append in Heq.
    simpl in Heq. by eapply trimmed_last.
Qed.

(** X13.  Cutting a file at [\n] and [\r\n] always yields at least one
    piece, no piece contains a line feed, and for a file without
    carriage returns joining the pieces with line feeds gives the file
    back; so a readable file always has an excerpt for line 1. *)
Theorem split_lines_pieces (s : string) :
  (∃ first rest, split_lines s = first :: rest)
  ∧ (∀ piece, piece ∈ split_lines s → LF ∉ String.list_ascii_of_string piece)
  ∧ (CR ∉ String.list_ascii_of_string s →
     String.concat (String LF "") (split_lines s) = s)
  ∧ (∀ host frame path,
        normalizeFilePath host (fileName frame) = Ret path →
        readFileSync host path = Ret s →
        lineNumber frame = Some 1 →
        ∃ text, sourceLine host frame = Ret text).
Proof.
  assert (Hne : ∃ first rest, split_lines s = first :: rest).
  { pose proof (split_lines_from_nonempty [] s) as Hne. unfold split_lines.
    destruct (split_lines_from [] s); [done|eauto]. }
  split_and!.
  - exact Hne.
  - intros piece Hpiece.
    apply (split_lines_from_no_LF (String.length s) s []); [done|apply not_elem_of_nil|done].
  - intros Hcr. unfold split_lines. by rewrite concat_split_lines_from.
  - intros host frame path Hpath Hread Hline. destruct Hne as (first & rest & Hsplit).
    exists (trim first). unfold sourceLine. rewrite Hpath. run.
    by rewrite Hread, Hline, Hsplit.
Qed.

(** X14.  The text of an excerpt is trimmed: it neither starts nor ends
    with a white-space character, and trimming it again changes nothing. *)
Theorem excerpt_is_trimmed (host : Host) (s : StackFrame) (text : string) :
  sourceLine host s = Ret text →
  trim text = text
  ∧ (∀ c rest, text = String c rest → is_white_space c = false)
  ∧ (∀ pre c, text = pre +:+ String c "" → is_white_space c = false).
Proof.
  unfold sourceLine. destruct (normalizeFilePath host (fileName s)) as [path|]; [|done].
  run. destruct (readFileSync host path) as [contents|]; [|done].
  destruct (index (split_lines contents) (default 0 (lineNumber s) - 1)) as [line|];
    [|done].
  intros [= <-]. apply trim_properties.
Qed.

Lemma excerpt_is_trimmed_witness :
  sourceLine demo_host {| lineNumber := Some 2; fileName := FileString "/app/server.js" |}
  = Ret "net.createServer().listen(0)"
  ∧ trim "net.createServer().listen(0)" = "net.createServer().listen(0)"
  ∧ (∀ c rest, "net.createServer().listen(0)" = String c rest →
               is_white_space c = false)
  ∧ (∀ pre c, "net.createServer().listen(0)" = pre +:+ String c "" →
              is_white_space c = false).
Proof.
  split; [reflexivity|].
  apply (excerpt_is_trimmed demo_host
           {| lineNumber := Some 2; fileName := FileString "/app/server.js" |}).
  reflexivity.
Defined.

(** ** Further properties of the inspection *)

Lemma isActive_weaken (objs' objs : gmap N Resource) (r : AsyncResource) :
  objs' ⊆ objs → isActive objs' r = true → isActive objs r = true.
Proof.
  intros Hsub. unfold isActive, deref. destruct (resourceRef r) as [target].
  destruct (objs' !! target) as [resource|] eqn:Hlook; [|done].
  by rewrite (lookup_weaken _ _ _ _ Hlook Hsub).
Qed.

Lemma filter_sublist_impl {A} (P Q : A → Prop)
    `{∀ x, Decision (P x)} `{∀ x, Decision (Q x)} (l : list A) :
  (∀ x, P x → Q x) → filter P l `sublist_of` filter Q l.
Proof.
  intros HPQ. induction l as [|x l IH]; [done|].
  rewrite !filter_cons. destruct (decide (P x)) as [HP|HP].
  - rewrite decide_True by auto. by apply sublist_skip.
  - destruct (decide (Q x)); [by apply sublist_cons|done].
Qed.

(** X17.  Garbage collection can only shorten a report: with the same
    registry and some of the objects reclaimed, the active records are
    some of the records that were active before, in the same order. *)
Theorem collection_only_shrinks_report (w w' : World) :
  asyncResources w' = asyncResources w →
  objects w' ⊆ objects w →
  activeAsyncResources w' `sublist_of` activeAsyncResources w
  ∧ (length (activeAsyncResources w') ≤ length (activeAsyncResources w))%nat.
Proof.
  intros Hreg Hobjs.
  assert (Hsub : activeAsyncResources w' `sublist_of` activeAsyncResources w).
  { unfold activeAsyncResources. rewrite Hreg. apply filter_sublist_impl.
    intros r. rewrite !Is_true_true. by apply isActive_weaken. }
  split; [done|]. by apply sublist_length.
Qed.

Lemma collection_only_shrinks_report_witness :
  asyncResources demo_world_collected = asyncResources demo_world
  ∧ objects demo_world_collected ⊆ objects demo_world
  ∧ activeAsyncResources demo_world_collected
    `sublist_of` activeAsyncResources demo_world
  ∧ (length (activeAsyncResources demo_world_collected)
     ≤ length (activeAsyncResources demo_world))%nat.
Proof.
  assert (Hobjs : objects demo_world_collected ⊆ objects demo_world)
    by apply delete_subseteq.
  split; [reflexivity|]. split; [exact Hobjs|].
  apply (collection_only_shrinks_report demo_world demo_world_collected eq_refl Hobjs).
Defined.

(** X18.  When no record of the registry is active, the inspection
    writes the summary line with the count 0 and nothing else. *)
Theorem report_without_active_records (host : Host) (w : World) :
  activeAsyncResources w = [] →
  whyIsNodeRunning host w
  = (Ret tt,
     with_logged
       (logged w ++ ["There are 0 handle(s) keeping the process running."])
       (with_hook_enabled false w)).
Proof.
  intros Hnone. destruct (whyIsNodeRunning_writes host w) as (out & ls & Hrun & _ & Hall).
  rewrite Hnone in Hall. destruct Hall as [-> ->]; [constructor|].
  rewrite (Hrun w eq_refl). by rewrite Hnone.
Qed.

Lemma report_without_active_records_witness :
  activeAsyncResources (loaded NoFormatter demo_objects) = []
  ∧ whyIsNodeRunning demo_host (loaded NoFormatter demo_objects)
    = (Ret tt,
       with_logged
         (logged (loaded NoFormatter demo_objects)
          ++ ["There are 0 handle(s) keeping the process running."])
         (with_hook_enabled false (loaded NoFormatter demo_objects))).
Proof.
  split; [reflexivity|].
  apply (report_without_active_records demo_host (loaded NoFormatter demo_objects)).
  reflexivity.
Defined.

Lemma notify_frame (n : Notification) (w : World) :
  logged (notify n w).2 = logged w
  ∧ objects (notify n w).2 = objects w
  ∧ hook_enabled (notify n w).2 = hook_enabled w
  ∧ (creation_captured n →
     Error_prepareStackTrace (notify n w).2 = Error_prepareStackTrace w).
Proof.
  unfold notify. destruct (hook_enabled w) eqn:Hen; [|done].
  destruct n as [i type trig resource ctx|i]; [|done].
  destruct (decide (type ∈ IGNORED_TYPES)) as [Hig|Hig].
  { by rewrite init_ignored. }
  destruct ctx as [[sites|]|e].
  - by rewrite init_tracked.
  - by destruct (init_no_stack i type trig resource w Hig) as [e ->].
  - rewrite init_capture_raises by done. simpl. split_and!; [done..|].
    by intros [?|[? [=]]].
Qed.

Lemma deliver_frame (ns : list Notification) (w : World) :
  logged (deliver ns w).2 = logged w
  ∧ objects (deliver ns w).2 = objects w
  ∧ hook_enabled (deliver ns w).2 = hook_enabled w
  ∧ (Forall creation_captured ns →
     Error_prepareStackTrace (deliver ns w).2 = Error_prepareStackTrace w).
Proof.
  revert w. induction ns as [|n ns IH]; intros w; [done|].
  rewrite deliver_cons.
  destruct (notify_frame n w) as (Hlog & Hobj & Hen & Hfmt).
  destruct (notify n w) as [[[]|e] w1]; simpl in *.
  - destruct (IH w1) as (Hlog' & Hobj' & Hen' & Hfmt').
    split_and!; [congruence..|].
    intros [Hn Hns]%Forall_cons. rewrite Hfmt' by done. by apply Hfmt.
  - split_and!; [done..|]. intros [Hn _]%Forall_cons. by apply Hfmt.
Qed.

(** X19.  Tracking is silent: whatever notifications are delivered, the
    callbacks write nothing to the logger, leave the objects alone and
    keep the hook enabled; and when the stack of each tracked creation
    is captured, the global formatter slot ends up as it was at load. *)
Theorem tracking_is_silent f objs (ns : list Notification) :
  let w := (deliver ns (loaded f objs)).2 in
  logged w = []
  ∧ objects w = objs
  ∧ hook_enabled w = true
  ∧ (Forall creation_captured ns → Error_prepareStackTrace w = f).
Proof. intros w. apply (deliver_frame ns (loaded f objs)). Qed.
